(** * A shallow embedding of the robot-emulator simulation kernel

  The kernel of the emulator (the motor model, the differential-drive
  integrator, the distance sensor and the scheduler tick) is embedded
  here over the real numbers of the Standard Library: every Python
  [float] (and every [int] that is mixed with floats) is a real number.
  Rounding, infinities and NaN are therefore outside this model; the only
  exception the modelled code can raise is [ZeroDivisionError], and it is
  kept explicit in the [result] type.

  Two places of the code are decided by rounding, and there the real
  numbers say something else than the doubles of Python.  In
  [add_wheel_delta] a turn [k] that is tiny but not 0 is absorbed by
  [k + heading], so the differences of sines and cosines cancel: the
  function is embedded a second time in [Float64], on the binary64 floats
  of the kernel, and what it does there is proved in [Float64Facts].  In
  [read_mm] the cosine of a double is never exactly 0, so the branch
  [dx == 0] of [intersection] is reached by a direct call only; the
  properties of [read_mm] proved here hold for all inputs through the
  loop of [raytrace] alone, or are stated at heading 0, where the cosine
  and the sine of the code are exactly 1 and 0. *)

From Stdlib Require Import Reals Lra Lia ZArith List Bool.
Import ListNotations.
Open Scope R_scope.

(** ** Python builtins used by the kernel *)

Module Py.

(** The outcome of a Python expression that may divide. *)
Inductive result (A : Type) : Type :=
| Ok (a : A)
| ZeroDivisionError.
Arguments Ok {A} a.
Arguments ZeroDivisionError {A}.

Definition bind {A B : Type} (r : result A) (f : A -> result B) : result B :=
  match r with
  | Ok a => f a
  | ZeroDivisionError => ZeroDivisionError
  end.

(** Comparisons of floats, as booleans. *)
Definition lt (a b : R) : bool := if Rlt_dec a b then true else false.
Definition gt (a b : R) : bool := if Rgt_dec a b then true else false.
Definition le (a b : R) : bool := if Rle_dec a b then true else false.
Definition ge (a b : R) : bool := if Rge_dec a b then true else false.
Definition eq (a b : R) : bool := if Req_dec_T a b then true else false.
Definition ne (a b : R) : bool := if Req_dec_T a b then false else true.

(** [a / b]: true division raises on a zero divisor. *)
Definition truediv (a b : R) : result R :=
  if eq b 0 then ZeroDivisionError else Ok (a / b).

(** [min(a, b)] and [max(a, b)] keep the first argument unless the second
    one is strictly smaller (strictly larger). *)
Definition min (a b : R) : R := if lt b a then b else a.
Definition max (a b : R) : R := if gt b a then b else a.

(** [abs(a)]. *)
Definition abs (a : R) : R := Rabs a.

(** [int(a)] on a float truncates toward zero. *)
Definition int (a : R) : Z := if le 0 a then Zfloor a else Zceil a.

End Py.

Declare Scope py_scope.
Delimit Scope py_scope with py.
Notation "x <- e ;; f" := (Py.bind e (fun x => f))
(at level 61, e at next level, right associativity) : py_scope.
Notation "a // b" := (Py.truediv a b) (at level 40, left associativity) : py_scope.
Notation "a <? b" := (Py.lt a b) : py_scope.
Notation "a >? b" := (Py.gt a b) : py_scope.
Notation "a <=? b" := (Py.le a b) : py_scope.
Notation "a >=? b" := (Py.ge a b) : py_scope.
Notation "a =? b" := (Py.eq a b) : py_scope.
Notation "a !=? b" := (Py.ne a b) (at level 70) : py_scope.
Open Scope py_scope.

(** ** gopigo.py: class GoPiGoMotor *)

Module GoPiGoMotor.

Record t : Type := mk {
  encoder : R;
  limit : R;
  speed : R;
  target : option R;
  accel : R;
  decel : R;
  velocity : R
}.

Definition with_encoder (v : R) (self : t) : t :=
  mk v (limit self) (speed self) (target self) (accel self) (decel self) (velocity self).
Definition with_limit (v : R) (self : t) : t :=
  mk (encoder self) v (speed self) (target self) (accel self) (decel self) (velocity self).
Definition with_speed (v : R) (self : t) : t :=
  mk (encoder self) (limit self) v (target self) (accel self) (decel self) (velocity self).
Definition with_target (v : option R) (self : t) : t :=
  mk (encoder self) (limit self) (speed self) v (accel self) (decel self) (velocity self).
Definition with_accel (v : R) (self : t) : t :=
  mk (encoder self) (limit self) (speed self) (target self) v (decel self) (velocity self).
Definition with_decel (v : R) (self : t) : t :=
  mk (encoder self) (limit self) (speed self) (target self) (accel self) v (velocity self).
Definition with_velocity (v : R) (self : t) : t :=
  mk (encoder self) (limit self) (speed self) (target self) (accel self) (decel self) v.

(** [__init__] *)
Definition __init__ : t :=
  {| encoder := 0; limit := 0; speed := 0; target := None;
     accel := 5400; decel := 5800; velocity := 0 |}.

(** [_target_reached(self, precision=2)]; only called while a target is
    set, the target is passed as [tgt]. *)
Definition _target_reached (self : t) (tgt : R) (precision : R) : bool :=
  Py.abs (encoder self - tgt) <=? precision.

(** [_update_velocity]: the ramp is computed, then overwritten. *)
Definition _update_velocity (self : t) (desired_speed delta_time : R) : t :=
  let a := if Py.abs (velocity self) <? Py.abs desired_speed
           then accel self else decel self in
  let self1 :=
    if velocity self <? desired_speed then
      with_velocity (Py.min (velocity self + a * delta_time) desired_speed) self
    else if velocity self >? desired_speed then
      with_velocity (Py.max (velocity self - a * delta_time) desired_speed) self
    else self in
  with_velocity desired_speed self1.

(** The local [desired_speed] of [update]. *)
Definition desired_speed (self : t) : R :=
  match target self with
  | None => Py.min (Py.max (speed self) (- limit self)) (limit self)
  | Some tgt =>
      if negb (_target_reached self tgt 2) then
        limit self * (if tgt >? encoder self then 1 else -1)
      else 0
  end.

(** [update(self, delta_time)]: the new state and the returned delta. *)
Definition update (self : t) (delta_time : R) : t * R :=
  let self1 := _update_velocity self (desired_speed self) delta_time in
  let delta_rotate := velocity self1 * delta_time in
  (with_encoder (encoder self1 + delta_rotate) self1, delta_rotate).

Definition set_position (self : t) (degrees : R) : t :=
  with_speed 0 (with_target (Some degrees) self).

Definition get_encoder (self : t) : Z :=
  Py.int (encoder self + 0.5).

Definition set_limits (self : t) (dps : R) : t :=
  let dps := if dps <? 0 then - dps else dps in
  with_limit dps self.

Definition set_dps (self : t) (dps : R) : t :=
  with_speed dps (with_target None self).

Definition set_power (self : t) (power : Z) : Py.result t :=
  if (power =? -128)%Z then Py.Ok (set_dps self 0)
  else q <- IZR power // 127 ;; Py.Ok (set_dps self (q * 500)).

Definition offset_encoder (self : t) (degrees : R) : t :=
  with_encoder (encoder self - degrees) self.

End GoPiGoMotor.

(** ** emu.py: class TwoWheelsBot (pose and kinematics) *)

Module TwoWheelsBot.

Record t : Type := mk {
  x : R;
  y : R;
  heading : R;
  wheel_diameter : R;
  wheels_distance : R;
  pen_offset : R;
  scale : R;
  (* the turtle of the renderer: where it was last sent, and its heading *)
  turtle_position : R * R;
  turtle_heading : R
}.

(** [math.degrees] *)
Definition degrees (a : R) : R := a * (180 / PI).

(** [add_wheel_delta(self, left_delta, right_delta)] *)
Definition add_wheel_delta (self : t) (left_delta right_delta : R) : Py.result t :=
  ka <- ((right_delta - left_delta) * PI * wheel_diameter self) // 360 ;;
  k <- ka // wheels_distance self ;;
  sa <- ((right_delta + left_delta) * PI * wheel_diameter self) // 360 ;;
  s <- sa // 2 ;;
  let heading := heading self in
  xy <- (if k !=? 0 then
           qx <- (sin (k + heading) - sin heading) // k ;;
           let x' := x self + qx * s in
           qy <- (- cos (k + heading) + cos heading) // k ;;
           let y' := y self + qy * s in
           Py.Ok (x', y')
         else
           Py.Ok (x self + cos heading * s, y self + sin heading * s)) ;;
  let new_heading := heading + k in
  let new_x := (fst xy + sin new_heading * pen_offset self) * scale self in
  let new_y := (snd xy - cos new_heading * pen_offset self) * scale self in
  Py.Ok {| x := fst xy; y := snd xy; heading := new_heading;
        wheel_diameter := wheel_diameter self;
        wheels_distance := wheels_distance self;
        pen_offset := pen_offset self; scale := scale self;
        turtle_position := (new_x, new_y);
        turtle_heading := degrees new_heading |}.

(** [add_wheel_delta] called [n] times in a row with the same deltas. *)
Fixpoint add_wheel_delta_times (n : nat) (self : t) (left_delta right_delta : R)
  : Py.result t :=
  match n with
  | O => Py.Ok self
  | S n' =>
      self' <- add_wheel_delta self left_delta right_delta ;;
      add_wheel_delta_times n' self' left_delta right_delta
  end.

End TwoWheelsBot.

(** ** gopigo.py: class GoPiGoBot *)

Module GoPiGoBot.

Record t : Type := mk {
  body : TwoWheelsBot.t;
  left_motor : GoPiGoMotor.t;
  right_motor : GoPiGoMotor.t
}.

(** [update(self, delta_time)] *)
Definition update (self : t) (delta_time : R) : Py.result t :=
  let '(left', left_delta) := GoPiGoMotor.update (left_motor self) delta_time in
  let '(right', right_delta) := GoPiGoMotor.update (right_motor self) delta_time in
  body' <- TwoWheelsBot.add_wheel_delta (body self) left_delta right_delta ;;
  Py.Ok {| body := body'; left_motor := left'; right_motor := right' |}.

End GoPiGoBot.

(** ** gopigo.py: class GoPiGoDistanceSensor *)

Module GoPiGoDistanceSensor.

(** A segment [(x1, y1, x2, y2)] and the playground rectangle. *)
Definition segment : Type := (R * R * R * R)%type.
Definition rect : Type := (R * R * R * R)%type.

(** The running minimum of [raytrace]: [float('inf')] or a float. *)
Inductive best : Type :=
| Inf
| Fin (d : R).

Definition lt_best (d : R) (b : best) : bool :=
  match b with
  | Inf => true
  | Fin b' => d <? b'
  end.

(** [intersection(self, x, y, dx, dy, x1, y1, x2, y2)] *)
Definition intersection (x y dx dy x1 y1 x2 y2 : R) : Py.result R :=
  let idx := x2 - x1 in
  let idy := y2 - y1 in
  if dx =? 0 then
    if idx =? 0 then Py.Ok (-1)
    else
      q <- (x - x1) // idx ;;
      let d := q * idy + y1 - y in
      if (dy <? 0) && (d <? 0) then Py.Ok (- d)
      else if (dy >? 0) && (d >? 0) then Py.Ok d
      else Py.Ok (-1)
  else
    r <- dy // dx ;;
    let a := idy - idx * r in
    if a =? 0 then Py.Ok (-1)
    else
      r' <- dy // dx ;;
      t <- (y - y1 + (x1 - x) * r') // a ;;
      k <- (x1 + t * idx - x) // dx ;;
      if (k <? 0) || (t >? 1) || (t <? 0) then Py.Ok (-1)
      else
        let ix := t * idx + x1 in
        let iy := t * idy + y1 in
        Py.Ok (sqrt ((ix - x) ^ 2 + (iy - y) ^ 2)).

(** The [for seg in segments] loop of [raytrace], from a given [best_d]. *)
Fixpoint raytrace_from (best_d : best) (x y dx dy : R) (segments : list segment)
  : Py.result best :=
  match segments with
  | [] => Py.Ok best_d
  | (x1, y1, x2, y2) :: rest =>
      d <- intersection x y dx dy x1 y1 x2 y2 ;;
      let best_d := if (d >=? 0) && lt_best d best_d then Fin d else best_d in
      raytrace_from best_d x y dx dy rest
  end.

(** [raytrace(self, x, y, dx, dy, segments)] *)
Definition raytrace (x y dx dy : R) (segments : list segment) : Py.result best :=
  raytrace_from Inf x y dx dy segments.

(** The four boundary segments built by [read_mm]. *)
Definition segments_of (r : rect) : list segment :=
  let '(r0, r1, r2, r3) := r in
  [ (r0, r1, r2, r1);
    (r2, r1, r2, r3);
    (r2, r3, r0, r3);
    (r0, r3, r0, r1) ].

(** [read_mm(self)], for the sensor of [bot] on a playground of rectangle [r]. *)
Definition read_mm (r : rect) (bot : TwoWheelsBot.t) : Py.result R :=
  d <- raytrace (TwoWheelsBot.x bot) (TwoWheelsBot.y bot)
                (cos (TwoWheelsBot.heading bot)) (sin (TwoWheelsBot.heading bot))
                (segments_of r) ;;
  match d with
  | Inf => Py.Ok 8190
  | Fin d' => Py.Ok d'
  end.

End GoPiGoDistanceSensor.

(** ** emu.py: class Playground (the scheduler tick) *)

Module Playground.

(** A deferred action is a callback.  Of what a callback does, the model
    keeps its identity [name] (recorded in [executed] when it runs) and the
    callbacks it hands to [run_once] while it runs, in order. *)
#[warnings="-register-all"]
Inductive action : Type :=
| Action (name : nat) (queues : list action).

Definition name (a : action) : nat :=
  match a with Action n _ => n end.
Definition queues (a : action) : list action :=
  match a with Action _ q => q end.

Record t : Type := mk {
  image_interval : R;
  (* [last_update] and [last_image_update]: both [None] until the first
     tick, both set by it *)
  last_updates : option (R * R);
  bots : list GoPiGoBot.t;
  schedules : list action;
  (* ghost state: the callbacks run so far, and the screen refreshes *)
  executed : list nat;
  screen_updates : nat
}.

Definition with_last_updates (v : option (R * R)) (self : t) : t :=
  mk (image_interval self) v (bots self) (schedules self)
     (executed self) (screen_updates self).
Definition with_bots (v : list GoPiGoBot.t) (self : t) : t :=
  mk (image_interval self) (last_updates self) v (schedules self)
     (executed self) (screen_updates self).
Definition with_schedules (v : list action) (self : t) : t :=
  mk (image_interval self) (last_updates self) (bots self) v
     (executed self) (screen_updates self).
Definition with_executed (v : list nat) (self : t) : t :=
  mk (image_interval self) (last_updates self) (bots self) (schedules self)
     v (screen_updates self).
Definition with_screen_updates (v : nat) (self : t) : t :=
  mk (image_interval self) (last_updates self) (bots self) (schedules self)
     (executed self) v.

(** [run_once(self, func)] *)
Definition run_once (self : t) (func : action) : t :=
  with_schedules (schedules self ++ [func]) self.

(** [schedule()]: the callback runs, and queues what it queues. *)
Definition call (schedule : action) (self : t) : t :=
  fold_left run_once (queues schedule)
            (with_executed (executed self ++ [name schedule]) self).

(** [for schedule in self.schedules: schedule()].  A Python list iterator
    is an index into the live list: it stops when the index reaches the
    current length.  [fuel] bounds the number of iterations; [None] is
    the loop still running when it is used up. *)
Fixpoint drain (fuel : nat) (index : nat) (self : t) : option t :=
  match nth_error (schedules self) index with
  | None => Some self
  | Some schedule =>
      match fuel with
      | O => None
      | S fuel' => drain fuel' (S index) (call schedule self)
      end
  end.

(** [for bot in self.bots: bot.update(delta_time)] *)
Fixpoint update_bots (bots : list GoPiGoBot.t) (delta_time : R)
  : Py.result (list GoPiGoBot.t) :=
  match bots with
  | [] => Py.Ok []
  | bot :: rest =>
      bot' <- GoPiGoBot.update bot delta_time ;;
      rest' <- update_bots rest delta_time ;;
      Py.Ok (bot' :: rest')
  end.

(** [update(self)], where [time.perf_counter()] returns [current_time]. *)
Definition update (fuel : nat) (current_time : R) (self : t) : option (Py.result t) :=
  match last_updates self with
  | None => Some (Py.Ok (with_last_updates (Some (current_time, current_time)) self))
  | Some (last_update, last_image_update) =>
      let delta_time := current_time - last_update in
      let self := with_last_updates (Some (current_time, last_image_update)) self in
      match update_bots (bots self) delta_time with
      | Py.ZeroDivisionError => Some Py.ZeroDivisionError
      | Py.Ok bots' =>
          let self := with_bots bots' self in
          match drain fuel 0 self with
          | None => None
          | Some self =>
              let self := with_schedules [] self in
              if current_time - last_image_update >? image_interval self then
                Some (Py.Ok (with_screen_updates (S (screen_updates self)) self))
              else Some (Py.Ok self)
          end
      end
  end.

End Playground.

(** ** Sequences of calls, used to state properties of runs *)

Module MotorRun.
Import GoPiGoMotor.

(** [update] called [n] times in a row with the same [delta_time]. *)
Fixpoint update_times (n : nat) (self : t) (delta_time : R) : t :=
  match n with
  | O => self
  | S n' => update_times n' (fst (update self delta_time)) delta_time
  end.

(** One call made on a motor by the adapter or by the scheduler. *)
Inductive call : Type :=
| SetPower (power : Z)
| SetDps (dps : R)
| SetPosition (degrees : R)
| SetLimits (dps : R)
| Update (delta_time : R).

(** Runs the calls in order; returns the final motor and the values
    returned by the [update] calls, in order. *)
Fixpoint run (calls : list call) (self : t) : Py.result (t * list R) :=
  match calls with
  | [] => Py.Ok (self, [])
  | c :: rest =>
      match c with
      | SetPower power => self' <- set_power self power ;; run rest self'
      | SetDps dps => run rest (set_dps self dps)
      | SetPosition degrees => run rest (set_position self degrees)
      | SetLimits dps => run rest (set_limits self dps)
      | Update delta_time =>
          let '(self', delta) := update self delta_time in
          r <- run rest self' ;;
          Py.Ok (fst r, delta :: snd r)
      end
  end.

(** The state of a motor on which no positive limit was ever set. *)
Definition at_rest (self : t) : Prop :=
  limit self = 0 /\ velocity self = 0 /\ encoder self = 0.

(** The calls that never give [set_limits] a nonzero argument. *)
Definition limit_left_at_zero (c : call) : Prop :=
  match c with
  | SetLimits dps => dps = 0
  | _ => True
  end.

End MotorRun.

(** ** Closed forms, used to state and prove properties *)

Module KinematicsRun.
Import TwoWheelsBot.

(** The heading change [k] and the mean travel [s] of a tick. *)
Definition turn (self : t) (left_delta right_delta : R) : R :=
  (right_delta - left_delta) * PI * wheel_diameter self / 360 / wheels_distance self.
Definition travel (self : t) (left_delta right_delta : R) : R :=
  (right_delta + left_delta) * PI * wheel_diameter self / 360 / 2.

(** The pose after a tick of heading change [k] and mean travel [s]. *)
Definition moved_x (self : t) (k s : R) : R :=
  if Req_dec_T k 0 then x self + cos (heading self) * s
  else x self + (sin (k + heading self) - sin (heading self)) / k * s.
Definition moved_y (self : t) (k s : R) : R :=
  if Req_dec_T k 0 then y self + sin (heading self) * s
  else y self + (- cos (k + heading self) + cos (heading self)) / k * s.

Definition moved (self : t) (k s : R) : t :=
  {| x := moved_x self k s; y := moved_y self k s; heading := heading self + k;
     wheel_diameter := wheel_diameter self;
     wheels_distance := wheels_distance self;
     pen_offset := pen_offset self; scale := scale self;
     turtle_position :=
       ((moved_x self k s + sin (heading self + k) * pen_offset self) * scale self,
        (moved_y self k s - cos (heading self + k) * pen_offset self) * scale self);
     turtle_heading := degrees (heading self + k) |}.

End KinematicsRun.

Module SensorRun.
Import GoPiGoDistanceSensor.

(** What [intersection] returns, with the divisions of the Standard
    Library: every divisor has been tested before it is used. *)
Definition intersection_value (x y dx dy x1 y1 x2 y2 : R) : R :=
  let idx := x2 - x1 in
  let idy := y2 - y1 in
  if Req_dec_T dx 0 then
    if Req_dec_T idx 0 then -1
    else
      let d := (x - x1) / idx * idy + y1 - y in
      if (dy <? 0) && (d <? 0) then - d
      else if (dy >? 0) && (d >? 0) then d
      else -1
  else
    let a := idy - idx * (dy / dx) in
    if Req_dec_T a 0 then -1
    else
      let t := (y - y1 + (x1 - x) * (dy / dx)) / a in
      let k := (x1 + t * idx - x) / dx in
      if (k <? 0) || (t >? 1) || (t <? 0) then -1
      else sqrt ((t * idx + x1 - x) ^ 2 + (t * idy + y1 - y) ^ 2).

(** The value [intersection] returns for a segment. *)
Definition distance_to (x y dx dy : R) (seg : segment) : R :=
  let '(x1, y1, x2, y2) := seg in intersection_value x y dx dy x1 y1 x2 y2.

(** The running minimum after one more segment. *)
Definition keep_best (b : best) (d : R) : best :=
  if (d >=? 0) && lt_best d b then Fin d else b.

(** [b] is the least accepted value seen so far, or [Inf] when none was. *)
Definition least_accepted (ds : list R) (b : best) : Prop :=
  match b with
  | Inf => forall d, In d ds -> d < 0
  | Fin m => In m ds /\ 0 <= m /\ forall d, In d ds -> 0 <= d -> m <= d
  end.

(** A segment of the playground rectangle yields the accepted distance [v]
    for the ray of [bot]. *)
Definition accepted (r : rect) (bot : TwoWheelsBot.t) (v : R) : Prop :=
  exists x1 y1 x2 y2 : R,
    In (x1, y1, x2, y2) (segments_of r)
    /\ intersection (TwoWheelsBot.x bot) (TwoWheelsBot.y bot)
                    (cos (TwoWheelsBot.heading bot)) (sin (TwoWheelsBot.heading bot))
                    x1 y1 x2 y2 = Py.Ok v
    /\ 0 <= v.

End SensorRun.

Module SchedulerRun.
Import Playground.

(** How deep the callbacks queued by a callback nest. *)
Fixpoint depth (a : action) : nat :=
  match a with
  | Action _ qs => S (list_max (map depth qs))
  end.

(** The callbacks of a queue, then the callbacks they queue, then the
    callbacks those queue, and so on for [n] generations. *)
Fixpoint generations (n : nat) (queue : list action) : list action :=
  match n with
  | O => []
  | S n' => queue ++ generations n' (flat_map queues queue)
  end.

(** The state after the callbacks [ran] have run, one after the other. *)
Definition after (ran : list action) (self : t) : t :=
  mk (image_interval self) (last_updates self) (bots self)
     (schedules self ++ flat_map queues ran)
     (executed self ++ map name ran)
     (screen_updates self).

(** The [n]-th generation alone. *)
Fixpoint generation (n : nat) (queue : list action) : list action :=
  match n with
  | O => queue
  | S n' => generation n' (flat_map queues queue)
  end.

(** The deepest nesting in a queue. *)
Definition bound (queue : list action) : nat := list_max (map depth queue).

(** The end of a tick, after the drain: the queue is cleared and the
    screen refreshed when it is due. *)
Definition cleared (current_time last_image_update : R) (drained : t) : t :=
  let self := with_schedules [] drained in
  if current_time - last_image_update >? image_interval self then
    with_screen_updates (S (screen_updates self)) self
  else self.

(** A robot that has a wheel base. *)
Definition well_based (bot : GoPiGoBot.t) : Prop :=
  TwoWheelsBot.wheels_distance (GoPiGoBot.body bot) <> 0.

End SchedulerRun.

(** ** Runs of a motor over every one of its methods *)

Module MotorTicks.
Import GoPiGoMotor.

(** [update] called once per tick, the ticks having the lengths
    [delta_times]. *)
Fixpoint update_over (delta_times : list R) (self : t) : t :=
  match delta_times with
  | [] => self
  | delta_time :: rest => update_over rest (fst (update self delta_time))
  end.

(** The total length of the ticks. *)
Definition elapsed (delta_times : list R) : R := fold_right Rplus 0 delta_times.

(** A call of one of the methods that change a motor. *)
Inductive command : Type :=
| set_position_ (degrees : R)
| set_limits_ (dps : R)
| set_power_ (power : Z)
| set_dps_ (dps : R)
| offset_encoder_ (degrees : R)
| update_ (delta_time : R).

Definition execute (c : command) (self : t) : Py.result t :=
  match c with
  | set_position_ degrees => Py.Ok (set_position self degrees)
  | set_limits_ dps => Py.Ok (set_limits self dps)
  | set_power_ power => set_power self power
  | set_dps_ dps => Py.Ok (set_dps self dps)
  | offset_encoder_ degrees => Py.Ok (offset_encoder self degrees)
  | update_ delta_time => Py.Ok (fst (update self delta_time))
  end.

Fixpoint execute_all (cs : list command) (self : t) : Py.result t :=
  match cs with
  | [] => Py.Ok self
  | c :: rest => self' <- execute c self ;; execute_all rest self'
  end.

End MotorTicks.

(** ** gopigo3.py: class GoPiGo3 (the hardware interface of user programs) *)

Module GoPiGo3.

(** The exceptions a call of the interface can end in. *)
Inductive exception : Type :=
| IndexError
| AttributeError
| IOError
| ZeroDivisionError.

(** A call returns a value or raises; either way it leaves the robot
    [self.BOT], whose motors it shares with the scheduler, in some state. *)
Inductive outcome (A : Type) : Type :=
| Returns (a : A) (bot : GoPiGoBot.t)
| Raises (e : exception) (bot : GoPiGoBot.t).
Arguments Returns {A} a bot.
Arguments Raises {A} e bot.

(** One statement after the other. *)
Definition bind {A B : Type} (o : outcome A) (f : A -> GoPiGoBot.t -> outcome B)
  : outcome B :=
  match o with
  | Returns a bot => f a bot
  | Raises e bot => Raises e bot
  end.

Definition MOTOR_LEFT : Z := 1.
Definition MOTOR_RIGHT : Z := 2.
Definition MOTOR_FLOAT : Z := -128.

(** The motor objects of the robot. *)
Inductive motor : Type :=
| left_motor
| right_motor.

Definition get (m : motor) (bot : GoPiGoBot.t) : GoPiGoMotor.t :=
  match m with
  | left_motor => GoPiGoBot.left_motor bot
  | right_motor => GoPiGoBot.right_motor bot
  end.

Definition put (m : motor) (v : GoPiGoMotor.t) (bot : GoPiGoBot.t) : GoPiGoBot.t :=
  match m with
  | left_motor => GoPiGoBot.mk (GoPiGoBot.body bot) v (GoPiGoBot.right_motor bot)
  | right_motor => GoPiGoBot.mk (GoPiGoBot.body bot) (GoPiGoBot.left_motor bot) v
  end.

(** An element of [self.MOTORS]: [None], a motor, or a [GoPiGo3Motors]. *)
Inductive entry : Type :=
| NoneType
| Motor (m : motor)
| GoPiGo3Motors (motors : list motor).

Definition MOTORS : list entry :=
  [NoneType; Motor left_motor; Motor right_motor;
   GoPiGo3Motors [left_motor; right_motor]].

(** [l[index]]: a negative index counts from the end; [None] is
    [IndexError]. *)
Definition getitem (l : list entry) (index : Z) : option entry :=
  if (0 <=? index)%Z then nth_error l (Z.to_nat index)
  else if (- Z.of_nat (length l) <=? index)%Z
       then nth_error l (Z.to_nat (index + Z.of_nat (length l)))
       else None.

(** [m.method(...)] on one motor. *)
Definition on_motor (method : GoPiGoMotor.t -> Py.result GoPiGoMotor.t)
           (m : motor) (bot : GoPiGoBot.t) : outcome unit :=
  match method (get m bot) with
  | Py.Ok v => Returns tt (put m v bot)
  | Py.ZeroDivisionError => Raises ZeroDivisionError bot
  end.

(** [for m in self.motors: m.method(...)] of [GoPiGo3Motors]. *)
Fixpoint on_motors (method : GoPiGoMotor.t -> Py.result GoPiGoMotor.t)
         (motors : list motor) (bot : GoPiGoBot.t) : outcome unit :=
  match motors with
  | [] => Returns tt bot
  | m :: rest =>
      bind (on_motor method m bot) (fun _ bot' => on_motors method rest bot')
  end.

(** [self.MOTORS[port].method(...)], for the methods that a motor and a
    [GoPiGo3Motors] both have: [set_position], [set_limits], [set_dps],
    [set_power] and [offset_encoder]. *)
Definition on_port (method : GoPiGoMotor.t -> Py.result GoPiGoMotor.t)
           (port : Z) (bot : GoPiGoBot.t) : outcome unit :=
  match getitem MOTORS port with
  | None => Raises IndexError bot
  | Some NoneType => Raises AttributeError bot
  | Some (Motor m) => on_motor method m bot
  | Some (GoPiGo3Motors motors) => on_motors method motors bot
  end.

Definition set_motor_power (port power : Z) (bot : GoPiGoBot.t) : outcome unit :=
  let power := if (power >? 127)%Z then 127%Z else power in
  let power := if (power <? -128)%Z then (-128)%Z else power in
  on_port (fun m => GoPiGoMotor.set_power m power) port bot.

Definition set_motor_position (port : Z) (position : R) (bot : GoPiGoBot.t)
  : outcome unit :=
  on_port (fun m => Py.Ok (GoPiGoMotor.set_position m position)) port bot.

Definition set_motor_dps (port : Z) (dps : R) (bot : GoPiGoBot.t) : outcome unit :=
  on_port (fun m => Py.Ok (GoPiGoMotor.set_dps m dps)) port bot.

(** [set_motor_limits(self, port, power=0, dps=0)]: [power] is not used. *)
Definition set_motor_limits (port : Z) (power dps : R) (bot : GoPiGoBot.t)
  : outcome unit :=
  on_port (fun m => Py.Ok (GoPiGoMotor.set_limits m dps)) port bot.

(** [get_motor_status]: neither a motor nor a [GoPiGo3Motors] has a
    [get_status] method. *)
Definition get_motor_status (port : Z) (bot : GoPiGoBot.t) : outcome unit :=
  if (port =? MOTOR_LEFT)%Z || (port =? MOTOR_RIGHT)%Z then
    match getitem MOTORS port with
    | None => Raises IndexError bot
    | Some _ => Raises AttributeError bot
    end
  else Raises IOError bot.

(** [get_motor_encoder]: only a motor has a [get_encoder] method. *)
Definition get_motor_encoder (port : Z) (bot : GoPiGoBot.t) : outcome Z :=
  if (port =? MOTOR_LEFT)%Z || (port =? MOTOR_RIGHT)%Z then
    match getitem MOTORS port with
    | None => Raises IndexError bot
    | Some (Motor m) => Returns (GoPiGoMotor.get_encoder (get m bot)) bot
    | Some _ => Raises AttributeError bot
    end
  else Raises IOError bot.

Definition offset_motor_encoder (port : Z) (offset : R) (bot : GoPiGoBot.t)
  : outcome unit :=
  on_port (fun m => Py.Ok (GoPiGoMotor.offset_encoder m offset)) port bot.

Definition reset_motor_encoder (port : Z) (bot : GoPiGoBot.t) : outcome unit :=
  bind (if negb (Z.land port MOTOR_LEFT =? 0)%Z then
          bind (get_motor_encoder MOTOR_LEFT bot)
               (fun encoder bot' => offset_motor_encoder MOTOR_LEFT (IZR encoder) bot')
        else Returns tt bot)
       (fun _ bot' =>
          if negb (Z.land port MOTOR_RIGHT =? 0)%Z then
            bind (get_motor_encoder MOTOR_RIGHT bot')
                 (fun encoder bot'' =>
                    offset_motor_encoder MOTOR_RIGHT (IZR encoder) bot'')
          else Returns tt bot').

(** [reset_all]: the class has no [SERVO_1] attribute, so that the call of
    [set_servo] raises when its argument is evaluated. *)
Definition reset_all (bot : GoPiGoBot.t) : outcome unit :=
  bind (set_motor_power (MOTOR_LEFT + MOTOR_RIGHT) MOTOR_FLOAT bot)
       (fun _ bot' =>
          bind (set_motor_limits (MOTOR_LEFT + MOTOR_RIGHT) 0 0 bot')
               (fun _ bot'' => Raises AttributeError bot'')).

End GoPiGo3.

(** ** The geometry of the playground rectangle *)

Module SensorGeometry.
Import GoPiGoDistanceSensor.

(** The point [(px, py)] is strictly inside the rectangle. *)
Definition inside (r : rect) (px py : R) : Prop :=
  let '(r0, r1, r2, r3) := r in r0 < px < r2 /\ r1 < py < r3.

End SensorGeometry.

(** ** Runs of the scheduler over several ticks *)

Module PlaygroundTicks.
Import Playground.

(** [update] called once per tick, [time.perf_counter()] returning the
    successive [times]; a tick that raises ends the run. *)
Fixpoint ticks (fuel : nat) (times : list R) (self : t) : option (Py.result t) :=
  match times with
  | [] => Some (Py.Ok self)
  | current_time :: rest =>
      match update fuel current_time self with
      | Some (Py.Ok self') => ticks fuel rest self'
      | other => other
      end
  end.

(** The last of the [times], or [start] when there is none. *)
Fixpoint final (times : list R) (start : R) : R :=
  match times with
  | [] => start
  | current_time :: rest => final rest current_time
  end.

(** A robot with a wheel base whose two motors are in speed mode. *)
Definition cruising (bot : GoPiGoBot.t) : Prop :=
  TwoWheelsBot.wheels_distance (GoPiGoBot.body bot) <> 0
  /\ GoPiGoMotor.target (GoPiGoBot.left_motor bot) = None
  /\ GoPiGoMotor.target (GoPiGoBot.right_motor bot) = None.

(** The encoder of [after] is the one of [before], advanced by the
    commanded speed clamped to the limit, times [elapsed]. *)
Definition motor_advanced (elapsed : R) (before after : GoPiGoMotor.t) : Prop :=
  GoPiGoMotor.encoder after =
  GoPiGoMotor.encoder before
  + Rmin (Rmax (GoPiGoMotor.speed before) (- GoPiGoMotor.limit before))
         (GoPiGoMotor.limit before) * elapsed.

Definition advanced (elapsed : R) (before after : GoPiGoBot.t) : Prop :=
  motor_advanced elapsed (GoPiGoBot.left_motor before) (GoPiGoBot.left_motor after)
  /\ motor_advanced elapsed (GoPiGoBot.right_motor before)
                    (GoPiGoBot.right_motor after).

(** The same, with what a further tick needs to know. *)
Definition motor_coasted (elapsed : R) (before after : GoPiGoMotor.t) : Prop :=
  GoPiGoMotor.target before = None
  /\ GoPiGoMotor.target after = None
  /\ GoPiGoMotor.speed after = GoPiGoMotor.speed before
  /\ GoPiGoMotor.limit after = GoPiGoMotor.limit before
  /\ motor_advanced elapsed before after.

Definition coasted (elapsed : R) (before after : GoPiGoBot.t) : Prop :=
  TwoWheelsBot.wheels_distance (GoPiGoBot.body after) <> 0
  /\ motor_coasted elapsed (GoPiGoBot.left_motor before) (GoPiGoBot.left_motor after)
  /\ motor_coasted elapsed (GoPiGoBot.right_motor before)
                   (GoPiGoBot.right_motor after).

End PlaygroundTicks.

(** ** emu.py: [add_wheel_delta] on IEEE 754 doubles

    The embedding above computes in the real numbers.  Where rounding decides
    what the code does, the same function is embedded here on the binary64
    floats of the kernel, which are the floats of Python.  [math.sin] and
    [math.cos] belong to the C library: they are parameters. *)

From Corelib Require PrimFloat SpecFloat FloatOps FloatAxioms.

Module Float64.
Import PrimFloat.
Local Open Scope float_scope.

(** [math.pi] *)
Definition pi : float := 0x1.921fb54442d18p+1.

(** [a / b] *)
Definition truediv (a b : float) : Py.result float :=
  if b =? 0 then Py.ZeroDivisionError else Py.Ok (a / b).

(** [a != b] *)
Definition ne (a b : float) : bool := negb (a =? b).

Record t : Type := mk {
  x : float;
  y : float;
  heading : float;
  wheel_diameter : float;
  wheels_distance : float;
  pen_offset : float;
  scale : float;
  turtle_position : float * float;
  turtle_heading : float
}.

(** [math.degrees] *)
Definition degrees (a : float) : float := a * (180 / pi).

(** A float that is neither an infinity nor a NaN. *)
Definition finite (v : float) : Prop :=
  match FloatOps.Prim2SF v with
  | SpecFloat.S754_zero _ | SpecFloat.S754_finite _ _ _ => True
  | _ => False
  end.

Section Libm.

(** [math.sin] and [math.cos] *)
Variables sin cos : float -> float.

(** [add_wheel_delta(self, left_delta, right_delta)] *)
Definition add_wheel_delta (self : t) (left_delta right_delta : float)
  : Py.result t :=
  ka <- truediv ((right_delta - left_delta) * pi * wheel_diameter self) 360 ;;
  k <- truediv ka (wheels_distance self) ;;
  sa <- truediv ((right_delta + left_delta) * pi * wheel_diameter self) 360 ;;
  s <- truediv sa 2 ;;
  let heading := heading self in
  xy <- (if ne k 0 then
           qx <- truediv (sin (k + heading) - sin heading) k ;;
           let x' := x self + qx * s in
           qy <- truediv (- cos (k + heading) + cos heading) k ;;
           let y' := y self + qy * s in
           Py.Ok (x', y')
         else
           Py.Ok (x self + cos heading * s, y self + sin heading * s)) ;;
  let new_heading := heading + k in
  let new_x := (fst xy + sin new_heading * pen_offset self) * scale self in
  let new_y := (snd xy - cos new_heading * pen_offset self) * scale self in
  Py.Ok {| x := fst xy; y := snd xy; heading := new_heading;
           wheel_diameter := wheel_diameter self;
           wheels_distance := wheels_distance self;
           pen_offset := pen_offset self; scale := scale self;
           turtle_position := (new_x, new_y);
           turtle_heading := degrees new_heading |}.

(** [add_wheel_delta] called [n] times in a row with the same deltas. *)
Fixpoint add_wheel_delta_times (n : nat) (self : t) (left_delta right_delta : float)
  : Py.result t :=
  match n with
  | O => Py.Ok self
  | S n' =>
      self' <- add_wheel_delta self left_delta right_delta ;;
      add_wheel_delta_times n' self' left_delta right_delta
  end.

End Libm.

End Float64.

(** ** The words of the specification *)

Module Spec.

(** [clamp(v, lo, hi)] *)
Definition clamp (v lo hi : R) : R := Rmin (Rmax v lo) hi.

(** [sign(v)] *)
Definition sign (v : R) : R :=
  if Rlt_dec 0 v then 1 else if Rlt_dec v 0 then -1 else 0.

(** Rounding to the nearest integer, halves upward. *)
Definition round_half_up (v : R) : Z := Zfloor (v + 0.5).

(** The fractional part of the magnitude of [v]. *)
Definition fraction (v : R) : R := Rabs v - IZR (Zfloor (Rabs v)).

End Spec.

(** * Properties *)

(** ** Reading the comparisons *)

Lemma lt_spec (a b : R) : (a <? b) = true <-> a < b.
Proof. unfold Py.lt; destruct (Rlt_dec a b); split; intros; try easy. Qed.

Lemma gt_spec (a b : R) : (a >? b) = true <-> a > b.
Proof. unfold Py.gt; destruct (Rgt_dec a b); split; intros; try easy. Qed.

Lemma le_spec (a b : R) : (a <=? b) = true <-> a <= b.
Proof. unfold Py.le; destruct (Rle_dec a b); split; intros; try easy. Qed.

Lemma ge_spec (a b : R) : (a >=? b) = true <-> a >= b.
Proof. unfold Py.ge; destruct (Rge_dec a b); split; intros; try easy. Qed.

Lemma eq_spec (a b : R) : (a =? b) = true <-> a = b.
Proof. unfold Py.eq; destruct (Req_dec_T a b); split; intros; try easy. Qed.

Lemma ne_spec (a b : R) : (a !=? b) = true <-> a <> b.
Proof. unfold Py.ne; destruct (Req_dec_T a b); split; intros; try easy. Qed.

(** Case analysis on every comparison in sight. *)
Ltac py_cases :=
unfold Py.min, Py.max, Py.abs, Py.lt, Py.gt, Py.le, Py.ge, Py.eq, Py.ne in *;
repeat match goal with
       | |- context [Rlt_dec ?a ?b] => destruct (Rlt_dec a b)
       | |- context [Rgt_dec ?a ?b] => destruct (Rgt_dec a b)
       | |- context [Rle_dec ?a ?b] => destruct (Rle_dec a b)
       | |- context [Rge_dec ?a ?b] => destruct (Rge_dec a b)
       | |- context [Req_dec_T ?a ?b] => destruct (Req_dec_T a b)
       end.

Lemma truediv_ok (a b : R) : b <> 0 -> a // b = Py.Ok (a / b).
Proof. intros Hb. unfold Py.truediv. py_cases; [contradiction | reflexivity]. Qed.

Lemma truediv_zero (a : R) : a // 0 = Py.ZeroDivisionError.
Proof. unfold Py.truediv. py_cases; [reflexivity | contradiction]. Qed.

Lemma min_Rmin (a b : R) : Py.min a b = Rmin a b.
Proof. unfold Rmin. py_cases; lra. Qed.

Lemma max_Rmax (a b : R) : Py.max a b = Rmax a b.
Proof. unfold Rmax. py_cases; lra. Qed.

(** ** The motor model *)

Module MotorFacts.
Import GoPiGoMotor MotorRun.

Lemma velocity_update_velocity (self : t) (d dt : R) :
  _update_velocity self d dt = with_velocity d self.
Proof.
  unfold _update_velocity.
  destruct (velocity self <? d); [reflexivity|].
  destruct (velocity self >? d); reflexivity.
Qed.

Lemma update_eq (self : t) (dt : R) :
  update self dt =
  (with_encoder (encoder self + desired_speed self * dt)
                (with_velocity (desired_speed self) self),
   desired_speed self * dt).
Proof. unfold update. rewrite velocity_update_velocity. reflexivity. Qed.

(** C1: [update] commits exactly the desired speed of the step as the new
    velocity; that speed is the clamped commanded speed without a target,
    the limit signed toward the target while the target is more than 2
    degrees away, and 0 otherwise; the acceleration and deceleration
    constants have no influence on the step. *)
Theorem update_snaps_to_desired_speed (self : t) (delta_time : R) :
  velocity (fst (update self delta_time)) = desired_speed self
  /\ desired_speed self =
     match target self with
     | None => Spec.clamp (speed self) (- limit self) (limit self)
     | Some tgt =>
         if Rgt_dec (Rabs (encoder self - tgt)) 2
         then limit self * Spec.sign (tgt - encoder self)
         else 0
     end
  /\ forall a d : R,
       update (with_accel a (with_decel d self)) delta_time =
       (with_accel a (with_decel d (fst (update self delta_time))),
        snd (update self delta_time)).
Proof.
  split; [|split].
  - rewrite update_eq. reflexivity.
  - unfold desired_speed, Spec.clamp, _target_reached.
    destruct (target self) as [tgt|].
    + unfold Spec.sign, Py.abs, Py.le, Py.gt.
      destruct (Rle_dec (Rabs (encoder self - tgt)) 2) as [Hle|Hnle];
        destruct (Rgt_dec (Rabs (encoder self - tgt)) 2) as [Hgt|Hngt];
        simpl; try lra.
      destruct (Rgt_dec tgt (encoder self)) as [Hup|Hdown].
      * destruct (Rlt_dec 0 (tgt - encoder self)); [reflexivity | lra].
      * destruct (Rlt_dec 0 (tgt - encoder self)); [lra|].
        destruct (Rlt_dec (tgt - encoder self) 0); [reflexivity|].
        assert (encoder self - tgt = 0) as Hz by lra.
        rewrite Hz, Rabs_R0 in Hgt. lra.
    + rewrite min_Rmin, max_Rmax. reflexivity.
  - intros a d. rewrite !update_eq. reflexivity.
Qed.

(** C7: [set_limits] is total, stores the magnitude of its argument as
    the limit, gives the same motor for [dps] and [- dps], and changes no
    other field. *)
Theorem set_limits_stores_magnitude (self : t) (dps : R) :
  limit (set_limits self dps) = Rabs dps
  /\ set_limits self (- dps) = set_limits self dps
  /\ encoder (set_limits self dps) = encoder self
  /\ speed (set_limits self dps) = speed self
  /\ target (set_limits self dps) = target self
  /\ velocity (set_limits self dps) = velocity self
  /\ accel (set_limits self dps) = accel self
  /\ decel (set_limits self dps) = decel self.
Proof.
  unfold set_limits, with_limit; simpl.
  repeat split.
  - unfold Rabs. py_cases; destruct (Rcase_abs dps); lra.
  - f_equal. py_cases; lra.
Qed.

Lemma desired_speed_no_limit (self : t) :
  limit self = 0 -> desired_speed self = 0.
Proof.
  intros Hl. unfold desired_speed. rewrite Hl.
  destruct (target self) as [tgt|].
  - destruct (negb _); lra.
  - py_cases; lra.
Qed.

Lemma at_rest_update (self : t) (dt : R) :
  at_rest self -> at_rest (fst (update self dt)) /\ snd (update self dt) = 0.
Proof.
  intros (Hl & Hv & He). rewrite update_eq.
  rewrite (desired_speed_no_limit self Hl).
  unfold at_rest; simpl. repeat split; try assumption; lra.
Qed.

Lemma set_power_ok (self : t) (power : Z) :
  exists dps, set_power self power = Py.Ok (set_dps self dps).
Proof.
  unfold set_power. destruct (power =? -128)%Z.
  - exists 0. reflexivity.
  - rewrite truediv_ok by lra. simpl. eexists. reflexivity.
Qed.

Lemma at_rest_run (calls : list call) :
  Forall limit_left_at_zero calls ->
  forall self, at_rest self ->
  exists self' deltas,
    run calls self = Py.Ok (self', deltas)
    /\ at_rest self' /\ Forall (fun d => d = 0) deltas.
Proof.
  induction 1 as [|c rest Hc Hrest IH]; intros self Hself.
  - exists self, []. simpl. auto.
  - destruct c as [power|dps|degrees|dps|dt]; cbn [run].
    + destruct (set_power_ok self power) as [dps ->]. cbn [Py.bind].
      apply IH. exact Hself.
    + apply IH. exact Hself.
    + apply IH. exact Hself.
    + simpl in Hc. subst dps. apply IH.
      destruct Hself as (Hl & Hv & He). unfold at_rest, set_limits; simpl.
      repeat split; try assumption. py_cases; lra.
    + destruct (at_rest_update self dt Hself) as [Hrest' Hdelta].
      destruct (update self dt) as [self1 delta]. simpl in Hrest', Hdelta.
      destruct (IH self1 Hrest') as (self' & deltas & Hrun & Hr & Hd).
      rewrite Hrun. cbn [Py.bind fst snd]. exists self', (delta :: deltas).
      repeat split; try apply Hr. constructor; assumption.
Qed.

(** C8: a fresh motor has limit 0, and any sequence of [set_power],
    [set_dps], [set_position], [update] and [set_limits(0)] calls on it
    runs without error, leaves encoder and velocity at 0, and every
    [update] in it returns 0. *)
Theorem no_motion_without_limit (calls : list call) :
  Forall limit_left_at_zero calls ->
  limit __init__ = 0
  /\ exists self' deltas,
       run calls __init__ = Py.Ok (self', deltas)
       /\ encoder self' = 0 /\ velocity self' = 0
       /\ Forall (fun d => d = 0) deltas.
Proof.
  intros Hcalls. split; [reflexivity|].
  destruct (at_rest_run calls Hcalls __init__) as (self' & deltas & Hrun & Hr & Hd).
  - repeat split; reflexivity.
  - exists self', deltas. destruct Hr as (_ & Hv & He). auto.
Qed.

Lemma no_motion_without_limit_witness :
  Forall limit_left_at_zero
         [SetPower 100; SetDps 300; Update 0.5; SetPosition 90; SetLimits 0; Update 1]
  /\ exists self' deltas,
       run [SetPower 100; SetDps 300; Update 0.5; SetPosition 90; SetLimits 0; Update 1]
           __init__ = Py.Ok (self', deltas)
       /\ encoder self' = 0 /\ velocity self' = 0
       /\ Forall (fun d => d = 0) deltas.
Proof.
  assert (Forall limit_left_at_zero
     [SetPower 100; SetDps 300; Update 0.5; SetPosition 90; SetLimits 0; Update 1]) as H.
  { repeat constructor. }
  split; [exact H|].
  exact (proj2 (no_motion_without_limit _ H)).
Defined.

(** C9: [get_encoder] returns the integer [int(encoder + 0.5)].  For a
    non-negative encoder that is rounding half up; for a negative encoder
    whose magnitude has a fractional part above 0.5 the truncation toward
    zero gives one more than rounding half up, that is the encoder
    truncated toward zero: an encoder of -10.6 reads as -10. *)
Theorem get_encoder_truncates (self : t) :
  get_encoder self = Py.int (encoder self + 0.5)
  /\ (0 <= encoder self ->
      get_encoder self = Spec.round_half_up (encoder self))
  /\ (encoder self < 0 -> 0.5 < Spec.fraction (encoder self) ->
      get_encoder self = (Spec.round_half_up (encoder self) + 1)%Z
      /\ get_encoder self = Py.int (encoder self)).
Proof.
  unfold get_encoder, Spec.round_half_up, Spec.fraction, Py.int.
  split; [reflexivity|split].
  - intros He. py_cases; [reflexivity | lra].
  - intros Hneg Hfrac.
    rewrite Rabs_left in Hfrac by assumption.
    pose proof (Zfloor_bound (- encoder self)) as [Hlo Hhi].
    set (n := Zfloor (- encoder self)) in *.
    assert (Zceil (encoder self + 0.5) = (- n)%Z) as Hceil.
    { apply Zceil_eq. rewrite opp_IZR. lra. }
    assert (Zfloor (encoder self + 0.5) = (- n - 1)%Z) as Hfloor.
    { apply Zfloor_eq. rewrite minus_IZR, opp_IZR. lra. }
    assert (Zceil (encoder self) = (- n)%Z) as Hceil'.
    { apply Zceil_eq. rewrite opp_IZR. lra. }
    assert (0 <= IZR n) as Hn.
    { apply IZR_le. apply Zfloor_lub. simpl. lra. }
    py_cases; try lra.
    rewrite Hceil, Hfloor, Hceil'. split; [lia | reflexivity].
Qed.

Lemma get_encoder_truncates_witness :
  get_encoder (with_encoder (-10.6) __init__) = (-10)%Z.
Proof.
  assert (encoder (with_encoder (-10.6) __init__) = -10.6) as He by reflexivity.
  assert (Zfloor (Rabs (-10.6)) = 10%Z) as Hfl.
  { rewrite Rabs_left by lra. apply Zfloor_eq. lra. }
  destruct (get_encoder_truncates (with_encoder (-10.6) __init__))
    as (_ & _ & Hneg).
  destruct Hneg as [Hup _].
  - rewrite He. lra.
  - rewrite He. unfold Spec.fraction. rewrite Hfl.
    rewrite Rabs_left by lra. lra.
  - rewrite Hup. unfold Spec.round_half_up. rewrite He.
    assert (Zfloor (-10.6 + 0.5) = (-11)%Z) as ->; [|reflexivity].
    apply Zfloor_eq. lra.
Defined.

(** *** Position mode *)

Lemma target_update (self : t) (dt : R) :
  target (fst (update self dt)) = target self.
Proof. rewrite update_eq. reflexivity. Qed.

Lemma limit_update (self : t) (dt : R) :
  limit (fst (update self dt)) = limit self.
Proof. rewrite update_eq. reflexivity. Qed.

Lemma encoder_update (self : t) (dt : R) :
  encoder (fst (update self dt)) = encoder self + desired_speed self * dt.
Proof. rewrite update_eq. reflexivity. Qed.

Lemma Rabs_le_iff (a b : R) : Rabs a <= b <-> - b <= a <= b.
Proof.
  split; intros H.
  - unfold Rabs in H. destruct (Rcase_abs a); lra.
  - apply Rabs_le. exact H.
Qed.

Lemma desired_speed_reached (self : t) (P : R) :
  target self = Some P -> Rabs (encoder self - P) <= 2 ->
  desired_speed self = 0.
Proof.
  intros Ht Hin. unfold desired_speed, _target_reached. rewrite Ht.
  unfold Py.abs, Py.le. destruct (Rle_dec _ _); [reflexivity | contradiction].
Qed.

Lemma desired_speed_seeking (self : t) (P : R) :
  target self = Some P -> ~ Rabs (encoder self - P) <= 2 ->
  desired_speed self = if Rgt_dec P (encoder self) then limit self else - limit self.
Proof.
  intros Ht Hout. unfold desired_speed, _target_reached. rewrite Ht.
  unfold Py.abs, Py.le, Py.gt. destruct (Rle_dec _ _); [contradiction|].
  simpl. destruct (Rgt_dec _ _); lra.
Qed.

Lemma update_times_add (n k : nat) (self : t) (dt : R) :
  update_times (n + k) self dt = update_times k (update_times n self dt) dt.
Proof.
  revert self. induction n as [|n IH]; intros self; cbn [update_times Nat.add];
    [reflexivity|].
  apply IH.
Qed.

Lemma target_update_times (n : nat) (self : t) (dt : R) :
  target (update_times n self dt) = target self.
Proof.
  revert self. induction n as [|n IH]; intros self; cbn [update_times Nat.add];
    [reflexivity|].
  rewrite IH. apply target_update.
Qed.

(** Within the window the motor holds: nothing moves any more. *)
Lemma holds_when_reached (self : t) (P dt : R) (j : nat) :
  target self = Some P -> Rabs (encoder self - P) <= 2 ->
  encoder (update_times j self dt) = encoder self.
Proof.
  revert self. induction j as [|j IH]; intros self Ht Hin; cbn [update_times];
    [reflexivity|].
  assert (encoder (fst (update self dt)) = encoder self) as He.
  { rewrite encoder_update, (desired_speed_reached self P Ht Hin). lra. }
  rewrite IH.
  - exact He.
  - rewrite target_update. exact Ht.
  - rewrite He. exact Hin.
Qed.

(** One step toward the window, when a step is not longer than the
    window is wide. *)
Lemma approaches (self : t) (P dt : R) (k : nat) :
  target self = Some P -> 0 < limit self -> 0 < dt -> limit self * dt <= 4 ->
  Rabs (encoder self - P) <= 2 + INR (S k) * (limit self * dt) ->
  Rabs (encoder (fst (update self dt)) - P) <= 2 + INR k * (limit self * dt).
Proof.
  intros Ht HL Hdt Hstep Hfar.
  rewrite S_INR in Hfar.
  assert (0 <= INR k * (limit self * dt)) as Hk.
  { apply Rmult_le_pos; [apply pos_INR | nra]. }
  assert (0 < limit self * dt) as Hpos by nra.
  rewrite encoder_update.
  destruct (Rle_dec (Rabs (encoder self - P)) 2) as [Hin|Hout].
  - rewrite (desired_speed_reached self P Ht Hin).
    apply Rabs_le_iff in Hin. apply Rabs_le_iff. lra.
  - rewrite (desired_speed_seeking self P Ht Hout).
    apply Rabs_le_iff in Hfar. apply Rabs_le_iff.
    assert (~ (-2 <= encoder self - P <= 2)) as Hout'.
    { intros H. apply Hout. apply Rabs_le_iff. exact H. }
    destruct (Rgt_dec P (encoder self)); lra.
Qed.

Lemma reaches (k : nat) (self : t) (P dt : R) :
  target self = Some P -> 0 < limit self -> 0 < dt -> limit self * dt <= 4 ->
  Rabs (encoder self - P) <= 2 + INR k * (limit self * dt) ->
  Rabs (encoder (update_times k self dt) - P) <= 2.
Proof.
  revert self. induction k as [|k IH]; intros self Ht HL Hdt Hstep Hfar.
  - simpl in *. lra.
  - cbn [update_times]. apply IH.
    + rewrite target_update. exact Ht.
    + rewrite limit_update. exact HL.
    + exact Hdt.
    + rewrite limit_update. exact Hstep.
    + rewrite limit_update. apply approaches; assumption.
Qed.

Lemma limit_set_limits_pos (self : t) (L : R) :
  0 < L -> limit (set_limits self L) = L.
Proof. intros HL. unfold set_limits. simpl. py_cases; lra. Qed.

(** C5, as amended: with a positive limit and a positive time step whose
    product (the rotation of one step at full speed) is at most 4 degrees,
    the width of the window around the target, repeated [update] calls
    bring the encoder within 2 degrees of the target, and from then on
    the desired speed is 0, every [update] returns 0 and the encoder no
    longer changes. *)
Theorem position_mode_converges (self : t) (P L dt : R) :
  0 < L -> 0 < dt -> L * dt <= 4 ->
  exists n : nat, forall j : nat, (n <= j)%nat ->
    Rabs (encoder (update_times j (set_position (set_limits self L) P) dt) - P) <= 2
    /\ desired_speed (update_times j (set_position (set_limits self L) P) dt) = 0
    /\ snd (update (update_times j (set_position (set_limits self L) P) dt) dt) = 0
    /\ encoder (fst (update (update_times j (set_position (set_limits self L) P) dt) dt))
       = encoder (update_times j (set_position (set_limits self L) P) dt).
Proof.
  intros HL Hdt Hstep.
  set (m := set_position (set_limits self L) P).
  assert (target m = Some P) as Ht by reflexivity.
  assert (limit m = L) as Hl.
  { change (limit (set_limits self L) = L). apply limit_set_limits_pos. exact HL. }
  assert (0 < L * dt) as Hpos by nra.
  destruct (INR_unbounded (Rabs (encoder m - P) / (L * dt))) as [n Hn].
  assert (Rabs (encoder m - P) < INR n * (L * dt)) as Hn'.
  { apply (Rmult_lt_compat_r (L * dt)) in Hn; [|exact Hpos].
    unfold Rdiv in Hn. rewrite Rmult_assoc, Rinv_l, Rmult_1_r in Hn; lra. }
  assert (Rabs (encoder (update_times n m dt) - P) <= 2) as Hin.
  { apply reaches; rewrite ?Hl; try assumption. lra. }
  exists n. intros j Hj.
  replace j with (n + (j - n))%nat by lia.
  rewrite update_times_add.
  set (mn := update_times n m dt) in *.
  assert (target mn = Some P) as Htn.
  { unfold mn. rewrite target_update_times. exact Ht. }
  set (mj := update_times (j - n) mn dt).
  assert (target mj = Some P) as Htj.
  { unfold mj. rewrite target_update_times. exact Htn. }
  assert (encoder mj = encoder mn) as Hej.
  { unfold mj. apply (holds_when_reached mn P); assumption. }
  assert (Rabs (encoder mj - P) <= 2) as Hinj by (rewrite Hej; exact Hin).
  pose proof (desired_speed_reached mj P Htj Hinj) as Hd.
  repeat split.
  - exact Hinj.
  - exact Hd.
  - rewrite update_eq, Hd. simpl. lra.
  - rewrite encoder_update, Hd. lra.
Qed.

Lemma position_mode_converges_witness :
  0 < 300 /\ 0 < 0.0025 /\ 300 * 0.0025 <= 4
  /\ exists n : nat, forall j : nat, (n <= j)%nat ->
    Rabs (encoder (update_times j (set_position (set_limits __init__ 300) 90) 0.0025) - 90) <= 2
    /\ desired_speed (update_times j (set_position (set_limits __init__ 300) 90) 0.0025) = 0
    /\ snd (update (update_times j (set_position (set_limits __init__ 300) 90) 0.0025) 0.0025) = 0
    /\ encoder (fst (update (update_times j (set_position (set_limits __init__ 300) 90) 0.0025) 0.0025))
       = encoder (update_times j (set_position (set_limits __init__ 300) 90) 0.0025).
Proof.
  assert (0 < 300) as H1 by lra.
  assert (0 < 0.0025) as H2 by lra.
  assert (300 * 0.0025 <= 4) as H3 by lra.
  repeat (split; [assumption|]).
  exact (position_mode_converges __init__ 90 300 0.0025 H1 H2 H3).
Defined.

(** With a limit of 10 degrees per second, a target of 3 degrees and steps
    of one second, the encoder alternates between 0 and 10. *)
Lemma oscillation (n : nat) (self : t) :
  target self = Some 3 -> limit self = 10 ->
  encoder self = 0 \/ encoder self = 10 ->
  Rabs (encoder (update_times n self 1) - 3) > 2.
Proof.
  revert self. induction n as [|n IH]; intros self Ht Hl He; cbn [update_times].
  - destruct He as [-> | ->].
    + rewrite Rabs_left; lra.
    + rewrite Rabs_right; lra.
  - apply IH.
    + rewrite target_update. exact Ht.
    + rewrite limit_update. exact Hl.
    + rewrite encoder_update.
      assert (~ Rabs (encoder self - 3) <= 2) as Hout.
      { destruct He as [-> | ->].
        - rewrite Rabs_left; lra.
        - rewrite Rabs_right; lra. }
      rewrite (desired_speed_seeking self 3 Ht Hout), Hl.
      destruct He as [-> | ->]; destruct (Rgt_dec _ _); lra.
Qed.

(** C5, as stated, fails: with a positive limit and a positive time step
    the encoder can jump over the window forever. *)
Lemma position_mode_can_overshoot_forever :
  exists (self : t) (P L dt : R),
    0 < L /\ 0 < dt
    /\ forall n : nat,
         Rabs (encoder (update_times n (set_position (set_limits self L) P) dt) - P) > 2.
Proof.
  exists __init__, 3, 10, 1.
  split; [lra|]. split; [lra|].
  intros n. apply oscillation.
  - reflexivity.
  - change (limit (set_limits __init__ 10) = 10). apply limit_set_limits_pos. lra.
  - left. reflexivity.
Qed.

End MotorFacts.

(** ** The kinematics integrator *)

Module KinematicsFacts.
Import TwoWheelsBot KinematicsRun.

(** A division whose divisor is known not to be zero goes through. *)
Ltac divide :=
  rewrite truediv_ok by (assumption || lra); cbn [Py.bind].

Lemma add_wheel_delta_ok (self : t) (l r : R) :
  wheels_distance self <> 0 ->
  add_wheel_delta self l r = Py.Ok (moved self (turn self l r) (travel self l r)).
Proof.
  intros Hd. unfold add_wheel_delta. do 4 divide.
  fold (turn self l r). fold (travel self l r).
  unfold moved, moved_x, moved_y, Py.ne.
  destruct (Req_dec_T (turn self l r) 0) as [Hk|Hk].
  - cbn [Py.bind fst snd]. reflexivity.
  - do 2 divide. cbn [fst snd]. reflexivity.
Qed.

Lemma add_wheel_delta_no_base (self : t) (l r : R) :
  wheels_distance self = 0 ->
  add_wheel_delta self l r = Py.ZeroDivisionError.
Proof.
  intros Hd. unfold add_wheel_delta. divide. rewrite Hd, truediv_zero. reflexivity.
Qed.

Lemma turn_moved (self : t) (k s l r : R) :
  turn (moved self k s) l r = turn self l r.
Proof. reflexivity. Qed.

Lemma travel_moved (self : t) (k s l r : R) :
  travel (moved self k s) l r = travel self l r.
Proof. reflexivity. Qed.

Lemma moved_ext (self : t) (k k' s s' : R) :
  k = k' -> s = s' -> moved self k s = moved self k' s'.
Proof. intros -> ->. reflexivity. Qed.

Lemma moved_x_moved (self : t) (k s m : R) :
  0 < m ->
  moved_x (moved self k s) (m * k) (m * s) = moved_x self ((m + 1) * k) ((m + 1) * s).
Proof.
  intros Hm. unfold moved_x. cbn [x heading moved]. unfold moved_x.
  destruct (Req_dec_T k 0) as [Hk|Hk].
  - subst k. rewrite !Rmult_0_r, Rplus_0_r.
    destruct (Req_dec_T 0 0) as [_|Hn]; [ring | contradiction].
  - destruct (Req_dec_T (m * k) 0) as [Hmk|Hmk]; [nra|].
    destruct (Req_dec_T ((m + 1) * k) 0) as [Hmk'|Hmk']; [nra|].
    replace (m * k + (heading self + k)) with ((m + 1) * k + heading self) by ring.
    replace (heading self + k) with (k + heading self) by ring.
    field. repeat split; lra.
Qed.

Lemma moved_y_moved (self : t) (k s m : R) :
  0 < m ->
  moved_y (moved self k s) (m * k) (m * s) = moved_y self ((m + 1) * k) ((m + 1) * s).
Proof.
  intros Hm. unfold moved_y. cbn [y heading moved]. unfold moved_y.
  destruct (Req_dec_T k 0) as [Hk|Hk].
  - subst k. rewrite !Rmult_0_r, Rplus_0_r.
    destruct (Req_dec_T 0 0) as [_|Hn]; [ring | contradiction].
  - destruct (Req_dec_T (m * k) 0) as [Hmk|Hmk]; [nra|].
    destruct (Req_dec_T ((m + 1) * k) 0) as [Hmk'|Hmk']; [nra|].
    replace (m * k + (heading self + k)) with ((m + 1) * k + heading self) by ring.
    replace (heading self + k) with (k + heading self) by ring.
    field. repeat split; lra.
Qed.

(** Two arcs of the same curvature in a row are one arc. *)
Lemma moved_moved (self : t) (k s m : R) :
  0 < m ->
  moved (moved self k s) (m * k) (m * s) = moved self ((m + 1) * k) ((m + 1) * s).
Proof.
  intros Hm. unfold moved at 1 3.
  rewrite (moved_x_moved self k s m Hm), (moved_y_moved self k s m Hm).
  cbn [heading wheel_diameter wheels_distance pen_offset scale moved].
  replace (heading self + k + m * k) with (heading self + (m + 1) * k) by ring.
  reflexivity.
Qed.

Lemma add_wheel_delta_times_ok (n : nat) (self : t) (l r : R) :
  wheels_distance self <> 0 ->
  add_wheel_delta_times (S n) self l r =
  Py.Ok (moved self (INR (S n) * turn self l r) (INR (S n) * travel self l r)).
Proof.
  intros Hd. revert self Hd.
  induction n as [|n IH]; intros self Hd.
  - cbn [add_wheel_delta_times]. rewrite add_wheel_delta_ok by exact Hd.
    cbn [Py.bind]. f_equal. apply moved_ext; simpl; ring.
  - change (add_wheel_delta_times (S (S n)) self l r)
      with (self' <- add_wheel_delta self l r ;; add_wheel_delta_times (S n) self' l r).
    rewrite add_wheel_delta_ok by exact Hd. cbn [Py.bind].
    rewrite IH by exact Hd.
    rewrite turn_moved, travel_moved. f_equal.
    rewrite moved_moved by apply lt_0_INR, Nat.lt_0_succ.
    apply moved_ext; rewrite (S_INR (S n)); ring.
Qed.

(** In exact real arithmetic the closed form composes: with a nonzero wheel
    base, [N >= 1] calls of [add_wheel_delta] with the deltas
    [(l / N, r / N)] and one call with [(l, r)] both succeed and end in the
    same pose [(x, y, heading)] (indeed in the same robot state).  This is
    the formula of the docstring; on doubles the code does not keep it, see
    [Float64Facts]. *)
Theorem add_wheel_delta_composes (self : t) (l r : R) (N : nat) :
  wheels_distance self <> 0 -> (1 <= N)%nat ->
  exists one many : t,
    add_wheel_delta self l r = Py.Ok one
    /\ add_wheel_delta_times N self (l / INR N) (r / INR N) = Py.Ok many
    /\ x many = x one /\ y many = y one /\ heading many = heading one
    /\ many = one.
Proof.
  intros Hd HN.
  destruct N as [|n]; [lia|].
  assert (INR (S n) <> 0) as Hn by (apply not_0_INR; discriminate).
  exists (moved self (turn self l r) (travel self l r)).
  exists (moved self (turn self l r) (travel self l r)).
  split; [apply add_wheel_delta_ok; exact Hd|].
  split; [|repeat split].
  rewrite add_wheel_delta_times_ok by exact Hd.
  f_equal. apply moved_ext; unfold turn, travel; field; auto.
Qed.

Lemma add_wheel_delta_composes_witness :
  exists one many : t,
    add_wheel_delta (mk 0 0 0 66.5 117 105.5 1.04 (0, 0) 0) 90 360 = Py.Ok one
    /\ add_wheel_delta_times 3 (mk 0 0 0 66.5 117 105.5 1.04 (0, 0) 0)
                             (90 / INR 3) (360 / INR 3) = Py.Ok many
    /\ x many = x one /\ y many = y one /\ heading many = heading one
    /\ many = one.
Proof.
  apply (add_wheel_delta_composes (mk 0 0 0 66.5 117 105.5 1.04 (0, 0) 0) 90 360 3).
  - simpl. lra.
  - lia.
Defined.

End KinematicsFacts.

(** ** The distance sensor *)

Module SensorFacts.
Import GoPiGoDistanceSensor SensorRun.

Lemma intersection_ok (x y dx dy x1 y1 x2 y2 : R) :
  intersection x y dx dy x1 y1 x2 y2 =
  Py.Ok (intersection_value x y dx dy x1 y1 x2 y2).
Proof.
  unfold intersection, intersection_value, Py.eq.
  destruct (Req_dec_T dx 0) as [Hdx|Hdx].
  - destruct (Req_dec_T (x2 - x1) 0) as [Hidx|Hidx]; [reflexivity|].
    rewrite truediv_ok by exact Hidx. cbn [Py.bind].
    destruct (_ && _); [reflexivity|].
    destruct (_ && _); reflexivity.
  - rewrite truediv_ok by exact Hdx. cbn [Py.bind].
    destruct (Req_dec_T (y2 - y1 - (x2 - x1) * (dy / dx)) 0) as [Ha|Ha];
      [reflexivity|].
    rewrite truediv_ok by exact Ha. cbn [Py.bind].
    rewrite truediv_ok by exact Hdx. cbn [Py.bind].
    destruct (_ || _); reflexivity.
Qed.

Lemma raytrace_from_ok (b : best) (x y dx dy : R) (segments : list segment) :
  raytrace_from b x y dx dy segments =
  Py.Ok (fold_left keep_best (map (distance_to x y dx dy) segments) b).
Proof.
  revert b. induction segments as [|[[[x1 y1] x2] y2] rest IH]; intros b.
  - reflexivity.
  - cbn [raytrace_from map fold_left]. rewrite intersection_ok. cbn [Py.bind].
    rewrite IH. reflexivity.
Qed.

Lemma keep_best_least (seen : list R) (b : best) (d : R) :
  least_accepted seen b -> least_accepted (seen ++ [d]) (keep_best b d).
Proof.
  intros Hb. unfold keep_best, Py.ge.
  destruct (Rge_dec d 0) as [Hd|Hd]; cbn [andb].
  - destruct b as [|m]; cbn [lt_best].
    + cbn. split; [apply in_or_app; right; left; reflexivity|].
      split; [lra|]. intros d' Hin Hpos.
      apply in_app_or in Hin. destruct Hin as [Hin|[->|[]]]; [|lra].
      specialize (Hb d' Hin). lra.
    + destruct Hb as (Hin & Hm & Hmin). unfold Py.lt.
      destruct (Rlt_dec d m) as [Hlt|Hge]; cbn.
      * split; [apply in_or_app; right; left; reflexivity|].
        split; [lra|]. intros d' Hin' Hpos.
        apply in_app_or in Hin'. destruct Hin' as [Hin'|[->|[]]]; [|lra].
        specialize (Hmin d' Hin' Hpos). lra.
      * split; [apply in_or_app; left; exact Hin|].
        split; [exact Hm|]. intros d' Hin' Hpos.
        apply in_app_or in Hin'. destruct Hin' as [Hin'|[->|[]]]; [|lra].
        apply Hmin; assumption.
  - destruct b as [|m]; cbn.
    + intros d' Hin. apply in_app_or in Hin.
      destruct Hin as [Hin|[->|[]]]; [apply Hb; exact Hin | lra].
    + destruct Hb as (Hin & Hm & Hmin).
      split; [apply in_or_app; left; exact Hin|].
      split; [exact Hm|]. intros d' Hin' Hpos.
      apply in_app_or in Hin'. destruct Hin' as [Hin'|[->|[]]]; [|lra].
      apply Hmin; assumption.
Qed.

Lemma fold_keep_best_least (ds seen : list R) (b : best) :
  least_accepted seen b ->
  least_accepted (seen ++ ds) (fold_left keep_best ds b).
Proof.
  revert seen b. induction ds as [|d ds IH]; intros seen b Hb.
  - rewrite app_nil_r. exact Hb.
  - cbn [fold_left].
    replace (seen ++ d :: ds) with ((seen ++ [d]) ++ ds)
      by (rewrite <- app_assoc; reflexivity).
    apply IH. apply keep_best_least. exact Hb.
Qed.

Lemma raytrace_least (x y dx dy : R) (segments : list segment) :
  exists b, raytrace x y dx dy segments = Py.Ok b
            /\ least_accepted (map (distance_to x y dx dy) segments) b.
Proof.
  unfold raytrace. rewrite raytrace_from_ok. eexists. split; [reflexivity|].
  apply (fold_keep_best_least _ [] Inf). intros d [].
Qed.

Lemma accepted_iff (r : rect) (bot : TwoWheelsBot.t) (v : R) :
  accepted r bot v <->
  In v (map (distance_to (TwoWheelsBot.x bot) (TwoWheelsBot.y bot)
                         (cos (TwoWheelsBot.heading bot))
                         (sin (TwoWheelsBot.heading bot)))
            (segments_of r))
  /\ 0 <= v.
Proof.
  unfold accepted. rewrite in_map_iff. split.
  - intros (x1 & y1 & x2 & y2 & Hin & Hv & Hpos).
    rewrite intersection_ok in Hv. injection Hv as Hv.
    split; [|exact Hpos]. exists (x1, y1, x2, y2). split; assumption.
  - intros [([[[x1 y1] x2] y2] & Hv & Hin) Hpos].
    exists x1, y1, x2, y2. rewrite intersection_ok.
    cbn [distance_to] in Hv. rewrite Hv. auto.
Qed.

(** C6, as amended: [read_mm] returns the sentinel 8190 when none of the
    4 boundary segments yields an accepted intersection, and otherwise the
    least accepted distance over the 4 segments (which can itself be
    8190). *)
Theorem read_mm_least_or_sentinel (r : rect) (bot : TwoWheelsBot.t) :
  exists d : R,
    read_mm r bot = Py.Ok d
    /\ ((forall v, ~ accepted r bot v) -> d = 8190)
    /\ ((exists v, accepted r bot v) ->
        accepted r bot d /\ forall v, accepted r bot v -> d <= v).
Proof.
  unfold read_mm.
  destruct (raytrace_least (TwoWheelsBot.x bot) (TwoWheelsBot.y bot)
              (cos (TwoWheelsBot.heading bot)) (sin (TwoWheelsBot.heading bot))
              (segments_of r)) as (b & -> & Hb).
  cbn [Py.bind]. destruct b as [|m]; cbn [least_accepted] in Hb.
  - exists 8190. split; [reflexivity|]. split; [reflexivity|].
    intros (v & Hv). apply accepted_iff in Hv. destruct Hv as [Hin Hpos].
    specialize (Hb v Hin). lra.
  - destruct Hb as (Hin & Hm & Hmin).
    assert (accepted r bot m) as Hacc by (apply accepted_iff; auto).
    exists m. split; [reflexivity|]. split.
    + intros Hnone. destruct (Hnone m Hacc).
    + intros _. split; [exact Hacc|].
      intros v Hv. apply accepted_iff in Hv. destruct Hv as [Hinv Hpos].
      apply Hmin; assumption.
Qed.

(** Evaluating [intersection_value] on numbers. *)
Ltac evaluate :=
  unfold intersection_value; cbv zeta;
  unfold Py.lt, Py.gt, Py.le, Py.ge;
  repeat match goal with
         | |- context [Req_dec_T ?a ?b] => destruct (Req_dec_T a b)
         | |- context [Rlt_dec ?a ?b] => destruct (Rlt_dec a b)
         | |- context [Rgt_dec ?a ?b] => destruct (Rgt_dec a b)
         end;
  cbn [andb orb]; try lra.

Lemma wall_bottom : intersection_value 0 0 1 0 (-8190) (-8190) 8190 (-8190) = -1.
Proof. evaluate. Qed.

Lemma wall_right : intersection_value 0 0 1 0 8190 (-8190) 8190 8190 = 8190.
Proof.
  evaluate.
  match goal with
  | |- sqrt ?e = _ => replace e with (8190 * 8190) by (field; lra)
  end.
  apply sqrt_square. lra.
Qed.

Lemma wall_top : intersection_value 0 0 1 0 8190 8190 (-8190) 8190 = -1.
Proof. evaluate. Qed.

Lemma wall_left : intersection_value 0 0 1 0 (-8190) 8190 (-8190) (-8190) = -1.
Proof. evaluate. Qed.

(** C6, as stated, fails: in the middle of a square playground whose walls
    are 8190 mm away, the wall ahead is hit at an accepted distance and
    [read_mm] returns 8190 all the same. *)
Lemma read_mm_sentinel_with_a_hit :
  read_mm (-8190, -8190, 8190, 8190)
          (TwoWheelsBot.mk 0 0 0 66.5 117 105.5 1.04 (0, 0) 0) = Py.Ok 8190
  /\ accepted (-8190, -8190, 8190, 8190)
              (TwoWheelsBot.mk 0 0 0 66.5 117 105.5 1.04 (0, 0) 0) 8190.
Proof.
  split.
  - unfold read_mm, raytrace. rewrite raytrace_from_ok.
    cbn [TwoWheelsBot.x TwoWheelsBot.y TwoWheelsBot.heading].
    rewrite cos_0, sin_0.
    cbn [segments_of map distance_to].
    rewrite wall_bottom, wall_right, wall_top, wall_left.
    cbn [fold_left]. unfold keep_best at 4. unfold Py.ge.
    destruct (Rge_dec (-1) 0); [lra|]. cbn [andb].
    unfold keep_best at 3. unfold Py.ge.
    destruct (Rge_dec 8190 0); [|lra]. cbn [andb lt_best].
    unfold keep_best, Py.ge.
    destruct (Rge_dec (-1) 0); [lra|]. cbn [andb Py.bind]. reflexivity.
  - apply accepted_iff.
    cbn [TwoWheelsBot.x TwoWheelsBot.y TwoWheelsBot.heading].
    rewrite cos_0, sin_0. cbn [segments_of map distance_to].
    rewrite wall_right. split; [right; left; reflexivity | lra].
Qed.

(** *** What a returned distance means *)

Lemma orb_false_3 (a b c : bool) :
  a || b || c = false -> a = false /\ b = false /\ c = false.
Proof. destruct a, b, c; simpl; intros H; try discriminate; auto. Qed.

(** For a ray that is not vertical, a non-negative result is the distance
    to a point of the ray ([k >= 0]) that lies on the segment
    ([0 <= t <= 1]), and the ray is not parallel to the segment. *)
Lemma oblique_hit_sound (x y dx dy x1 y1 x2 y2 d : R) :
  dx <> 0 ->
  intersection x y dx dy x1 y1 x2 y2 = Py.Ok d -> 0 <= d ->
  (y2 - y1) * dx - (x2 - x1) * dy <> 0
  /\ exists t k : R,
       0 <= k /\ 0 <= t <= 1
       /\ x + k * dx = x1 + t * (x2 - x1)
       /\ y + k * dy = y1 + t * (y2 - y1)
       /\ d = sqrt ((x1 + t * (x2 - x1) - x) ^ 2 + (y1 + t * (y2 - y1) - y) ^ 2).
Proof.
  intros Hdx Hret Hd. rewrite intersection_ok in Hret. injection Hret as Hret.
  unfold intersection_value in Hret. cbv zeta in Hret.
  destruct (Req_dec_T dx 0) as [|_]; [contradiction|].
  destruct (Req_dec_T (y2 - y1 - (x2 - x1) * (dy / dx)) 0) as [Ha|Ha]; [lra|].
  set (a := y2 - y1 - (x2 - x1) * (dy / dx)) in *.
  set (t := (y - y1 + (x1 - x) * (dy / dx)) / a) in *.
  set (k := (x1 + t * (x2 - x1) - x) / dx) in *.
  destruct ((k <? 0) || (t >? 1) || (t <? 0)) eqn:Hout; [lra|].
  apply orb_false_3 in Hout. destruct Hout as (Hk & Ht1 & Ht0).
  assert (~ k < 0) as Hk' by (intros H; apply lt_spec in H; congruence).
  assert (~ t > 1) as Ht1' by (intros H; apply gt_spec in H; congruence).
  assert (~ t < 0) as Ht0' by (intros H; apply lt_spec in H; congruence).
  split.
  - intros Hpar. apply Ha. unfold a.
    replace (y2 - y1 - (x2 - x1) * (dy / dx))
      with (((y2 - y1) * dx - (x2 - x1) * dy) / dx) by (field; exact Hdx).
    rewrite Hpar. field. exact Hdx.
  - exists t, k. split; [lra|]. split; [lra|].
    assert (x + k * dx = x1 + t * (x2 - x1)) as Hx.
    { unfold k. field; repeat split; assumption. }
    split; [exact Hx|]. split.
    + assert (t * a = y - y1 + (x1 - x) * (dy / dx)) as Hta.
      { unfold t. field; repeat split; assumption. }
      assert (k * dy = (x1 + t * (x2 - x1) - x) * (dy / dx)) as Hkdy.
      { unfold k. field; repeat split; assumption. }
      unfold a in Hta. rewrite Hkdy. lra.
    + rewrite <- Hret. f_equal. ring.
Qed.

(** C3: on a vertical ray [intersection] does not look at the extent of
    the segment.  The ray from the origin straight up never meets the
    segment from (10, 5) to (20, 5), whose points all have an abscissa of
    at least 10, and the call returns the distance 5 all the same. *)
Theorem vertical_ray_ignores_segment_extent :
  intersection 0 0 0 1 10 5 20 5 = Py.Ok 5
  /\ forall t k : R, 0 <= t <= 1 -> 0 + k * 0 <> 10 + t * (20 - 10).
Proof.
  split.
  - rewrite intersection_ok. f_equal. evaluate.
  - intros t k Ht. lra.
Qed.

End SensorFacts.

(** ** Divisions *)

Module DivisionFacts.

(** C10: every divisor is tested before it is used, so that no call raises
    [ZeroDivisionError]: [add_wheel_delta] and the robot's [update] when
    the wheel base is not zero, and [intersection], [raytrace] and
    [read_mm] on all inputs.  ([GoPiGoMotor.update] divides nowhere.) *)
Theorem no_division_by_zero :
  (forall (self : TwoWheelsBot.t) (l r : R),
      TwoWheelsBot.wheels_distance self <> 0 ->
      exists self', TwoWheelsBot.add_wheel_delta self l r = Py.Ok self')
  /\ (forall (bot : GoPiGoBot.t) (dt : R),
        TwoWheelsBot.wheels_distance (GoPiGoBot.body bot) <> 0 ->
        exists bot', GoPiGoBot.update bot dt = Py.Ok bot')
  /\ (forall x y dx dy x1 y1 x2 y2 : R,
        exists d, GoPiGoDistanceSensor.intersection x y dx dy x1 y1 x2 y2 = Py.Ok d)
  /\ (forall (x y dx dy : R) (segments : list GoPiGoDistanceSensor.segment),
        exists b, GoPiGoDistanceSensor.raytrace x y dx dy segments = Py.Ok b)
  /\ (forall (r : GoPiGoDistanceSensor.rect) (bot : TwoWheelsBot.t),
        exists d, GoPiGoDistanceSensor.read_mm r bot = Py.Ok d).
Proof.
  split; [|split; [|split; [|split]]].
  - intros self l r Hd. rewrite KinematicsFacts.add_wheel_delta_ok by exact Hd.
    eexists. reflexivity.
  - intros bot dt Hd. unfold GoPiGoBot.update.
    destruct (GoPiGoMotor.update (GoPiGoBot.left_motor bot) dt) as [left' ld].
    destruct (GoPiGoMotor.update (GoPiGoBot.right_motor bot) dt) as [right' rd].
    rewrite KinematicsFacts.add_wheel_delta_ok by exact Hd.
    eexists. reflexivity.
  - intros. rewrite SensorFacts.intersection_ok. eexists. reflexivity.
  - intros. unfold GoPiGoDistanceSensor.raytrace.
    rewrite SensorFacts.raytrace_from_ok. eexists. reflexivity.
  - intros r bot. unfold GoPiGoDistanceSensor.read_mm, GoPiGoDistanceSensor.raytrace.
    rewrite SensorFacts.raytrace_from_ok. cbn [Py.bind].
    destruct (fold_left _ _ _); eexists; reflexivity.
Qed.

Lemma no_division_by_zero_witness :
  exists bot',
    GoPiGoBot.update
      (GoPiGoBot.mk (TwoWheelsBot.mk 0 0 0 66.5 117 105.5 1.04 (0, 0) 0)
                    (GoPiGoMotor.set_dps (GoPiGoMotor.set_limits GoPiGoMotor.__init__ 300) 100)
                    (GoPiGoMotor.set_dps (GoPiGoMotor.set_limits GoPiGoMotor.__init__ 300) 200))
      0.0025 = Py.Ok bot'.
Proof.
  apply (proj1 (proj2 no_division_by_zero)).
  cbn [GoPiGoBot.body TwoWheelsBot.wheels_distance]. lra.
Defined.

End DivisionFacts.

(** ** The scheduler *)

Module SchedulerFacts.
Import Playground SchedulerRun.

Lemma call_after (a : action) (self : t) : call a self = after [a] self.
Proof.
  unfold call, after. cbn [flat_map map]. rewrite app_nil_r.
  assert (forall (qs : list action) (s0 : t),
             fold_left run_once qs s0 =
             mk (image_interval s0) (last_updates s0) (bots s0)
                (schedules s0 ++ qs) (executed s0) (screen_updates s0)) as Hfold.
  { induction qs as [|q qs IH]; intros s0; cbn [fold_left].
    - rewrite app_nil_r. destruct s0; reflexivity.
    - rewrite IH. unfold run_once, with_schedules. cbn.
      rewrite <- app_assoc. reflexivity. }
  rewrite Hfold. reflexivity.
Qed.

Lemma after_nil (self : t) : after [] self = self.
Proof. destruct self. unfold after. cbn. rewrite !app_nil_r. reflexivity. Qed.

Lemma after_app (q1 q2 : list action) (self : t) :
  after (q1 ++ q2) self = after q2 (after q1 self).
Proof.
  unfold after. cbn. rewrite flat_map_app, map_app, !app_assoc. reflexivity.
Qed.

Lemma drain_eq (fuel index : nat) (self : t) :
  drain fuel index self =
  match nth_error (schedules self) index with
  | None => Some self
  | Some schedule =>
      match fuel with
      | O => None
      | S fuel' => drain fuel' (S index) (call schedule self)
      end
  end.
Proof. destruct fuel; reflexivity. Qed.

(** The loop runs the callbacks under its index one after the other; what
    they queue goes to the end of the live list. *)
Lemma drain_prefix (q : list action) :
  forall (done r : list action) (self : t) (fuel : nat),
    schedules self = done ++ q ++ r ->
    drain (length q + fuel) (length done) self =
    drain fuel (length done + length q) (after q self).
Proof.
  induction q as [|a q IH]; intros done r self fuel Hs.
  - rewrite after_nil, Nat.add_0_r. reflexivity.
  - cbn [length Nat.add]. rewrite drain_eq.
    rewrite Hs, nth_error_app2, Nat.sub_diag by lia. cbn [nth_error app].
    rewrite call_after.
    replace (S (length done)) with (length (done ++ [a]))
      by (rewrite length_app; cbn; lia).
    rewrite (IH (done ++ [a]) (r ++ queues a)).
    + rewrite <- after_app. cbn [app].
      rewrite length_app. cbn [length].
      replace (length done + 1 + length q)%nat with (length done + S (length q))%nat by lia.
      reflexivity.
    + unfold after. cbn [schedules flat_map]. rewrite Hs, app_nil_r.
      rewrite <- !app_assoc. reflexivity.
Qed.

(** Generation after generation, until a generation is empty. *)
Lemma drain_generations (n : nat) :
  forall (q done : list action) (self : t) (fuel : nat),
    schedules self = done ++ q ->
    generation n q = [] ->
    drain (length (generations n q) + fuel) (length done) self =
    Some (after (generations n q) self).
Proof.
  induction n as [|n IH]; intros q done self fuel Hs Hempty.
  - cbn in Hempty. subst q. cbn [generations length Nat.add].
    rewrite drain_eq, after_nil.
    assert (nth_error (schedules self) (length done) = None) as ->.
    { apply nth_error_None. rewrite Hs, app_nil_r. lia. }
    reflexivity.
  - cbn [generations generation] in *.
    rewrite length_app, <- Nat.add_assoc.
    rewrite (drain_prefix q done []) by (rewrite app_nil_r; exact Hs).
    rewrite <- length_app.
    rewrite (IH (flat_map queues q) (done ++ q)).
    + rewrite <- after_app. reflexivity.
    + unfold after. cbn [schedules]. rewrite Hs. reflexivity.
    + exact Hempty.
Qed.

Lemma depth_pos (a : action) : (1 <= depth a)%nat.
Proof. destruct a. cbn. lia. Qed.

Lemma depth_queues (a c : action) : In c (queues a) -> (S (depth c) <= depth a)%nat.
Proof.
  destruct a as [n qs]. cbn [queues depth]. intros Hin.
  apply le_n_S.
  assert (Forall (fun k => (k <= list_max (map depth qs))%nat) (map depth qs)) as Hall
      by (apply list_max_le; lia).
  rewrite Forall_forall in Hall. apply Hall. apply in_map. exact Hin.
Qed.

Lemma generation_depth (n : nat) :
  forall q : list action,
    Forall (fun a => (depth a <= n)%nat) q -> generation n q = [].
Proof.
  induction n as [|n IH]; intros q Hq.
  - destruct q as [|a q]; [reflexivity|].
    inversion Hq as [|? ? Ha _]; subst. pose proof (depth_pos a). lia.
  - cbn [generation]. apply IH. apply Forall_forall. intros c Hc.
    apply in_flat_map in Hc. destruct Hc as (a & Ha & Hc).
    rewrite Forall_forall in Hq. specialize (Hq a Ha).
    pose proof (depth_queues a c Hc). lia.
Qed.

Lemma generation_bound (q : list action) : generation (S (S (bound q))) q = [].
Proof.
  apply generation_depth.
  assert (Forall (fun k => (k <= bound q)%nat) (map depth q)) as Hall
      by (apply list_max_le; unfold bound; lia).
  rewrite Forall_forall in *. intros a Ha.
  specialize (Hall (depth a) (in_map depth q a Ha)). lia.
Qed.

Lemma update_bots_ok (robots : list GoPiGoBot.t) (dt : R) :
  Forall well_based robots ->
  exists robots', update_bots robots dt = Py.Ok robots' /\ Forall well_based robots'.
Proof.
  induction 1 as [|bot rest Hbot Hrest IH].
  - exists []. split; [reflexivity | constructor].
  - destruct IH as (rest' & Hrest' & Hwb).
    cbn [update_bots]. unfold GoPiGoBot.update.
    destruct (GoPiGoMotor.update (GoPiGoBot.left_motor bot) dt) as [left' ld].
    destruct (GoPiGoMotor.update (GoPiGoBot.right_motor bot) dt) as [right' rd].
    rewrite KinematicsFacts.add_wheel_delta_ok by exact Hbot.
    cbn [Py.bind]. rewrite Hrest'. cbn [Py.bind].
    eexists. split; [reflexivity|]. constructor; [exact Hbot | exact Hwb].
Qed.

(** A tick of a playground that has ticked before, in terms of its drain. *)
Lemma update_drained (self drained : t) (robots' : list GoPiGoBot.t)
      (last_update last_image_update current_time : R) (fuel : nat) :
  last_updates self = Some (last_update, last_image_update) ->
  update_bots (bots self) (current_time - last_update) = Py.Ok robots' ->
  drain fuel 0
        (with_bots robots'
           (with_last_updates (Some (current_time, last_image_update)) self))
  = Some drained ->
  update fuel current_time self =
  Some (Py.Ok (cleared current_time last_image_update drained)).
Proof.
  intros Hlast Hbots Hdrain. unfold update, cleared. rewrite Hlast.
  cbn [bots with_last_updates]. rewrite Hbots, Hdrain.
  destruct (_ >? _); reflexivity.
Qed.

Lemma cleared_fields (current_time last_image_update : R) (drained : t) :
  executed (cleared current_time last_image_update drained) = executed drained
  /\ schedules (cleared current_time last_image_update drained) = []
  /\ bots (cleared current_time last_image_update drained) = bots drained
  /\ last_updates (cleared current_time last_image_update drained)
     = last_updates drained.
Proof. unfold cleared. cbv zeta. destruct (_ >? _); repeat split. Qed.

(** The first tick only sets the clock: nothing is drained, the queue stays. *)
Lemma first_tick_keeps_queue (self : t) (fuel : nat) (current_time : R) :
  last_updates self = None ->
  exists self',
    update fuel current_time self = Some (Py.Ok self')
    /\ schedules self' = schedules self
    /\ executed self' = executed self
    /\ last_updates self' = Some (current_time, current_time).
Proof.
  intros Hfirst. unfold update. rewrite Hfirst.
  eexists. split; [reflexivity|]. repeat split.
Qed.

(** C4, as amended: on a tick of a playground that has ticked before, the
    drain runs the queued callbacks in the order they were queued, then,
    in the same drain, the callbacks that those have queued while they
    ran, then what these have queued, and so on; the queue is empty after
    the tick and the following tick runs none of them. *)
Theorem tick_runs_queue_and_late_arrivals (self : t)
        (last_update last_image_update current_time next_time : R) :
  last_updates self = Some (last_update, last_image_update) ->
  Forall well_based (bots self) ->
  exists (fuel : nat) (self' : t),
    (forall fuel', (fuel <= fuel')%nat ->
                   update fuel' current_time self = Some (Py.Ok self'))
    /\ executed self' =
       executed self
         ++ map name (schedules self)
         ++ map name (flat_map queues (schedules self))
         ++ map name (generations (bound (schedules self))
                        (flat_map queues (flat_map queues (schedules self))))
    /\ schedules self' = []
    /\ exists self'',
         (forall fuel'', update fuel'' next_time self' = Some (Py.Ok self''))
         /\ executed self'' = executed self'.
Proof.
  intros Hlast Hwb.
  destruct (update_bots_ok (bots self) (current_time - last_update) Hwb)
    as (robots' & Hbots & Hwb').
  set (ticking := with_bots robots'
                    (with_last_updates (Some (current_time, last_image_update)) self)).
  set (ran := generations (S (S (bound (schedules self)))) (schedules self)).
  assert (forall fuel, drain (length ran + fuel) 0 ticking = Some (after ran ticking))
    as Hdrain.
  { intros fuel.
    apply (drain_generations (S (S (bound (schedules self)))) (schedules self) []).
    - reflexivity.
    - apply generation_bound. }
  set (self' := cleared current_time last_image_update (after ran ticking)).
  destruct (cleared_fields current_time last_image_update (after ran ticking))
    as (Hexec & Hsched & Hbots' & Hlast').
  fold self' in Hexec, Hsched, Hbots', Hlast'.
  exists (length ran), self'. split; [|split; [|split]].
  - intros fuel' Hfuel.
    replace fuel' with (length ran + (fuel' - length ran))%nat by lia.
    apply (update_drained self (after ran ticking) robots' last_update);
      [exact Hlast | exact Hbots | apply Hdrain].
  - rewrite Hexec. unfold after, ran. cbn [executed generations].
    unfold ticking. cbn [executed with_bots with_last_updates].
    rewrite !map_app. reflexivity.
  - exact Hsched.
  - assert (last_updates self' = Some (current_time, last_image_update)) as Hl
        by (rewrite Hlast'; reflexivity).
    assert (Forall well_based (bots self')) as Hw
        by (rewrite Hbots'; exact Hwb').
    destruct (update_bots_ok (bots self') (next_time - current_time) Hw)
      as (robots'' & Hbots'' & _).
    set (idle := with_bots robots''
                   (with_last_updates (Some (next_time, last_image_update)) self')).
    exists (cleared next_time last_image_update idle). split.
    + intros fuel''.
      apply (update_drained self' idle robots'' current_time);
        [exact Hl | exact Hbots'' |].
      rewrite drain_eq. fold idle.
      assert (schedules idle = []) as -> by exact Hsched.
      reflexivity.
    + destruct (cleared_fields next_time last_image_update idle) as (-> & _).
      reflexivity.
Qed.

Lemma tick_runs_queue_and_late_arrivals_witness :
  exists (fuel : nat) (self' : t),
    (forall fuel', (fuel <= fuel')%nat ->
       update fuel' 1
         (fold_left run_once
            [Action 1 [Action 4 []]; Action 2 []; Action 3 []]
            (mk (1 / 30) (Some (0, 0))
                [GoPiGoBot.mk (TwoWheelsBot.mk 0 0 0 66.5 117 105.5 1.04 (0, 0) 0)
                              GoPiGoMotor.__init__ GoPiGoMotor.__init__]
                [] [] 0))
       = Some (Py.Ok self'))
    /\ executed self' = [1; 2; 3; 4]%nat
    /\ schedules self' = [].
Proof.
  assert (Forall well_based
            [GoPiGoBot.mk (TwoWheelsBot.mk 0 0 0 66.5 117 105.5 1.04 (0, 0) 0)
                          GoPiGoMotor.__init__ GoPiGoMotor.__init__]) as Hwb.
  { constructor; [|constructor]. unfold well_based.
    cbn [GoPiGoBot.body TwoWheelsBot.wheels_distance]. lra. }
  destruct (tick_runs_queue_and_late_arrivals
              (fold_left run_once
                 [Action 1 [Action 4 []]; Action 2 []; Action 3 []]
                 (mk (1 / 30) (Some (0, 0))
                     [GoPiGoBot.mk (TwoWheelsBot.mk 0 0 0 66.5 117 105.5 1.04 (0, 0) 0)
                                   GoPiGoMotor.__init__ GoPiGoMotor.__init__]
                     [] [] 0))
              0 0 1 2 eq_refl Hwb)
    as (fuel & self' & Hup & Hexec & Hsched & _).
  exists fuel, self'. split; [exact Hup|]. split; [exact Hexec | exact Hsched].
Defined.

(** C4, as stated, fails: the callback 1 queues the callback 4 while it
    runs; the tick that runs 1, 2 and 3 runs 4 as well, and the following
    tick runs nothing. *)
Lemma late_arrival_runs_in_the_same_drain :
  exists self' self'' : t,
    update 4 1
      (fold_left run_once
         [Action 1 [Action 4 []]; Action 2 []; Action 3 []]
         (mk (1 / 30) (Some (0, 0)) [] [] [] 0))
    = Some (Py.Ok self')
    /\ executed self' = [1; 2; 3; 4]%nat
    /\ schedules self' = []
    /\ update 4 2 self' = Some (Py.Ok self'')
    /\ executed self'' = [1; 2; 3; 4]%nat.
Proof.
  set (queued := fold_left run_once
                   [Action 1 [Action 4 []]; Action 2 []; Action 3 []]
                   (mk (1 / 30) (Some (0, 0)) [] [] [] 0)).
  set (drained :=
         mk (1 / 30) (Some (1, 0)) []
            [Action 1 [Action 4 []]; Action 2 []; Action 3 []; Action 4 []]
            [1; 2; 3; 4]%nat 0).
  assert (update 4 1 queued = Some (Py.Ok (cleared 1 0 drained))) as Hfirst.
  { apply (update_drained queued drained [] 0); reflexivity. }
  destruct (cleared_fields 1 0 drained) as (Hexec & Hsched & Hbots & Hlast).
  set (idle := with_bots [] (with_last_updates (Some (2, 0)) (cleared 1 0 drained))).
  assert (update 4 2 (cleared 1 0 drained) = Some (Py.Ok (cleared 2 0 idle))) as Hsecond.
  { apply (update_drained (cleared 1 0 drained) idle [] 1).
    - rewrite Hlast. reflexivity.
    - rewrite Hbots. reflexivity.
    - rewrite drain_eq. fold idle.
      assert (schedules idle = []) as -> by exact Hsched.
      reflexivity. }
  exists (cleared 1 0 drained), (cleared 2 0 idle).
  split; [exact Hfirst|]. split; [exact Hexec|]. split; [exact Hsched|].
  split; [exact Hsecond|].
  destruct (cleared_fields 2 0 idle) as (-> & _).
  unfold idle. cbn [executed with_bots with_last_updates]. exact Hexec.
Qed.

End SchedulerFacts.

(** * Further properties *)

(** ** The motor model, continued *)

Module MotorMore.
Import GoPiGoMotor MotorTicks.

Lemma target_update_over (dts : list R) (self : t) :
  target (update_over dts self) = target self.
Proof.
  revert self. induction dts as [|dt dts IH]; intros self; cbn [update_over];
    [reflexivity|].
  rewrite IH. apply MotorFacts.target_update.
Qed.

Lemma desired_speed_free (self : t) (dt : R) :
  target self = None ->
  desired_speed (fst (update self dt)) = desired_speed self.
Proof.
  intros Ht. rewrite MotorFacts.update_eq. unfold desired_speed. cbn. rewrite Ht.
  reflexivity.
Qed.

(** X1: without a target, the encoder advances by the commanded speed
    clamped to the limit, times the total elapsed time, however the time is
    cut into ticks. *)
Theorem encoder_follows_elapsed_time (self : t) (delta_times : list R) :
  target self = None ->
  encoder (update_over delta_times self) =
  encoder self
  + Spec.clamp (speed self) (- limit self) (limit self) * elapsed delta_times.
Proof.
  intros Ht.
  assert (Spec.clamp (speed self) (- limit self) (limit self) = desired_speed self)
    as ->.
  { unfold Spec.clamp, desired_speed. rewrite Ht, min_Rmin, max_Rmax. reflexivity. }
  revert self Ht. induction delta_times as [|dt dts IH]; intros self Ht;
    cbn [update_over elapsed fold_right].
  - lra.
  - fold (elapsed dts). rewrite IH by (rewrite MotorFacts.target_update; exact Ht).
    rewrite (desired_speed_free self dt Ht), MotorFacts.encoder_update. lra.
Qed.

Lemma encoder_follows_elapsed_time_witness :
  encoder (update_over [0.25; 0.5; 0.25]
                       (set_dps (set_limits __init__ 300) 500))
  = encoder (set_dps (set_limits __init__ 300) 500)
    + Spec.clamp (speed (set_dps (set_limits __init__ 300) 500))
                 (- limit (set_dps (set_limits __init__ 300) 500))
                 (limit (set_dps (set_limits __init__ 300) 500))
      * elapsed [0.25; 0.5; 0.25].
Proof.
  apply (encoder_follows_elapsed_time (set_dps (set_limits __init__ 300) 500)).
  reflexivity.
Defined.

Lemma desired_speed_within_limit (self : t) :
  0 <= limit self -> Rabs (desired_speed self) <= limit self.
Proof.
  intros Hl. apply MotorFacts.Rabs_le_iff. unfold desired_speed.
  destruct (target self) as [tgt|].
  - destruct (negb _); [|lra]. destruct (tgt >? encoder self); lra.
  - py_cases; lra.
Qed.

Lemma limit_execute (c : command) (self : t) :
  0 <= limit self ->
  exists self', execute c self = Py.Ok self' /\ 0 <= limit self'.
Proof.
  intros Hl. destruct c as [degrees|dps|power|dps|degrees|dt]; cbn [execute].
  - eexists. split; [reflexivity | exact Hl].
  - eexists. split; [reflexivity|]. unfold set_limits. cbn. py_cases; lra.
  - destruct (MotorFacts.set_power_ok self power) as [dps ->].
    eexists. split; [reflexivity | exact Hl].
  - eexists. split; [reflexivity | exact Hl].
  - eexists. split; [reflexivity | exact Hl].
  - eexists. split; [reflexivity|]. rewrite MotorFacts.limit_update. exact Hl.
Qed.

Lemma limit_execute_all (cs : list command) :
  forall self : t,
    0 <= limit self ->
    exists self', execute_all cs self = Py.Ok self' /\ 0 <= limit self'.
Proof.
  induction cs as [|c cs IH]; intros self Hl; cbn [execute_all].
  - exists self. split; [reflexivity | exact Hl].
  - destruct (limit_execute c self Hl) as (self1 & -> & Hl1). cbn [Py.bind].
    apply IH. exact Hl1.
Qed.

(** X2: whatever methods were called on a motor since it was constructed,
    and in whatever order, the calls succeed, the limit is not negative, and
    the next [update] commits a velocity whose magnitude is at most the limit
    and returns a rotation of at most the limit times the length of the
    tick. *)
Theorem speed_stays_within_limit (cs : list command) (delta_time : R) :
  exists self : t,
    execute_all cs __init__ = Py.Ok self
    /\ 0 <= limit self
    /\ Rabs (velocity (fst (update self delta_time))) <= limit self
    /\ Rabs (snd (update self delta_time)) <= limit self * Rabs delta_time.
Proof.
  destruct (limit_execute_all cs __init__) as (self & Hrun & Hl).
  - cbn. lra.
  - exists self. split; [exact Hrun|]. split; [exact Hl|].
    rewrite MotorFacts.update_eq. cbn [fst snd velocity with_encoder with_velocity].
    pose proof (desired_speed_within_limit self Hl) as Hd.
    split; [exact Hd|].
    rewrite Rabs_mult. apply Rmult_le_compat_r; [apply Rabs_pos | exact Hd].
Qed.

(** What is left of a number after [int(e + 0.5)] is taken away. *)
Lemma remainder_of_reading (e : R) : -1.5 < e - IZR (Py.int (e + 0.5)) < 0.5.
Proof.
  unfold Py.int, Py.le. destruct (Rle_dec 0 (e + 0.5)) as [Hpos|Hneg].
  - pose proof (Zfloor_bound (e + 0.5)). lra.
  - pose proof (Zceil_bound (e + 0.5)). lra.
Qed.

Lemma reading_of_remainder (r : R) : -1.5 < r < 0.5 -> Py.int (r + 0.5) = 0%Z.
Proof.
  intros Hr. unfold Py.int, Py.le.
  destruct (Rle_dec 0 (r + 0.5)) as [Hpos|Hneg].
  - apply Zfloor_eq. simpl. lra.
  - apply Zceil_eq. simpl. lra.
Qed.

(** X3: offsetting the encoder by what [get_encoder] reads makes
    [get_encoder] read 0; the encoder itself keeps a remainder between -1.5
    and 0.5. *)
Theorem offset_by_reading_reads_zero (self : t) :
  get_encoder (offset_encoder self (IZR (get_encoder self))) = 0%Z
  /\ -1.5 < encoder (offset_encoder self (IZR (get_encoder self))) < 0.5.
Proof.
  unfold get_encoder, offset_encoder. cbn [encoder with_encoder].
  pose proof (remainder_of_reading (encoder self)) as Hrem.
  split; [|exact Hrem].
  apply reading_of_remainder. exact Hrem.
Qed.

(** X4: in position mode, when a step at full speed is not longer than the
    4-degree window around the target, an [update] never takes the encoder
    farther from the target. *)
Theorem position_mode_never_recedes (self : t) (P delta_time : R) :
  target self = Some P -> 0 <= limit self -> 0 <= delta_time ->
  limit self * delta_time <= 4 ->
  Rabs (encoder (fst (update self delta_time)) - P) <= Rabs (encoder self - P).
Proof.
  intros Ht Hl Hdt Hstep.
  assert (0 <= limit self * delta_time) as Hpos by (apply Rmult_le_pos; assumption).
  rewrite MotorFacts.encoder_update.
  destruct (Rle_dec (Rabs (encoder self - P)) 2) as [Hin|Hout].
  - rewrite (MotorFacts.desired_speed_reached self P Ht Hin).
    replace (encoder self + 0 * delta_time - P) with (encoder self - P) by ring.
    lra.
  - rewrite (MotorFacts.desired_speed_seeking self P Ht Hout).
    assert (~ (-2 <= encoder self - P <= 2)) as Hout'.
    { intros H. apply Hout. apply MotorFacts.Rabs_le_iff. exact H. }
    apply MotorFacts.Rabs_le_iff.
    destruct (Rgt_dec P (encoder self)) as [Hup|Hdown].
    + rewrite (Rabs_left (encoder self - P)) by lra. lra.
    + rewrite (Rabs_right (encoder self - P)) by lra. lra.
Qed.

Lemma position_mode_never_recedes_witness :
  Rabs (encoder (fst (update (set_position (set_limits __init__ 300) 90) 0.0025)) - 90)
  <= Rabs (encoder (set_position (set_limits __init__ 300) 90) - 90).
Proof.
  apply (position_mode_never_recedes
           (set_position (set_limits __init__ 300) 90) 90 0.0025).
  - reflexivity.
  - change (0 <= limit (set_limits __init__ 300)).
    rewrite MotorFacts.limit_set_limits_pos; lra.
  - lra.
  - change (limit (set_limits __init__ 300) * 0.0025 <= 4).
    rewrite MotorFacts.limit_set_limits_pos; lra.
Defined.

End MotorMore.

(** ** The hardware interface *)

Module AdapterFacts.
Import GoPiGo3.

Lemma get_put_same (m : motor) (v : GoPiGoMotor.t) (bot : GoPiGoBot.t) :
  get m (put m v bot) = v.
Proof. destruct m; reflexivity. Qed.

Lemma get_put_other (m m' : motor) (v : GoPiGoMotor.t) (bot : GoPiGoBot.t) :
  m <> m' -> get m' (put m v bot) = get m' bot.
Proof. destruct m, m'; intros H; try reflexivity; contradiction. Qed.

Lemma body_put (m : motor) (v : GoPiGoMotor.t) (bot : GoPiGoBot.t) :
  GoPiGoBot.body (put m v bot) = GoPiGoBot.body bot.
Proof. destruct m; reflexivity. Qed.

(** Case analysis on every comparison of integers in sight. *)
Ltac z_cases :=
  repeat (match goal with
          | |- context [(?a >? ?b)%Z] => destruct (Z.gtb_spec a b)
          | |- context [(?a <? ?b)%Z] => destruct (Z.ltb_spec a b)
          | |- context [(?a <=? ?b)%Z] => destruct (Z.leb_spec a b)
          | |- context [(?a =? ?b)%Z] => destruct (Z.eqb_spec a b)
          end; cbv iota).

(** X5: [set_motor_power] on the port of one motor never raises, whatever
    the power: the motor leaves position mode and its commanded speed is
    [power / 127 * 500] for a power from -127 to 127, 500 for every larger
    power and 0 (not -500) for every power of -128 or less, so that its
    magnitude is at most 500; the encoder and the limit of the motor, the
    other motor and the pose are unchanged. *)
Theorem set_motor_power_saturates (m : motor) (power : Z) (bot : GoPiGoBot.t) :
  exists bot' : GoPiGoBot.t,
    set_motor_power (match m with left_motor => MOTOR_LEFT | right_motor => MOTOR_RIGHT end)
                    power bot = Returns tt bot'
    /\ GoPiGoMotor.target (get m bot') = None
    /\ GoPiGoMotor.speed (get m bot') =
       (if (power <=? -128)%Z then 0
        else if (127 <=? power)%Z then 500
             else IZR power / 127 * 500)
    /\ Rabs (GoPiGoMotor.speed (get m bot')) <= 500
    /\ GoPiGoMotor.encoder (get m bot') = GoPiGoMotor.encoder (get m bot)
    /\ GoPiGoMotor.limit (get m bot') = GoPiGoMotor.limit (get m bot)
    /\ (forall m', m <> m' -> get m' bot' = get m' bot)
    /\ GoPiGoBot.body bot' = GoPiGoBot.body bot.
Proof.
  assert (forall p : Z,
             (-128 <= p <= 127)%Z ->
             exists v : GoPiGoMotor.t,
               GoPiGoMotor.set_power (get m bot) p = Py.Ok v
               /\ GoPiGoMotor.target v = None
               /\ GoPiGoMotor.speed v =
                  (if (p =? -128)%Z then 0 else IZR p / 127 * 500)
               /\ GoPiGoMotor.encoder v = GoPiGoMotor.encoder (get m bot)
               /\ GoPiGoMotor.limit v = GoPiGoMotor.limit (get m bot)) as Hset.
  { intros p Hp. unfold GoPiGoMotor.set_power.
    destruct (p =? -128)%Z.
    - eexists. split; [reflexivity|]. repeat split.
    - rewrite truediv_ok by lra. cbn [Py.bind].
      eexists. split; [reflexivity|]. repeat split. }
  set (p := if ((if (power >? 127)%Z then 127%Z else power) <? -128)%Z
            then (-128)%Z else if (power >? 127)%Z then 127%Z else power).
  assert (-128 <= p <= 127)%Z as Hp.
  { unfold p. z_cases; lia. }
  destruct (Hset p Hp) as (v & Hv & Ht & Hs & He & Hl).
  exists (put m v bot).
  assert (set_motor_power
            (match m with left_motor => MOTOR_LEFT | right_motor => MOTOR_RIGHT end)
            power bot = Returns tt (put m v bot)) as Hcall.
  { unfold set_motor_power. fold p.
    destruct m; unfold on_port.
    - change (getitem MOTORS MOTOR_LEFT) with (Some (Motor left_motor)).
      unfold on_motor. rewrite Hv. reflexivity.
    - change (getitem MOTORS MOTOR_RIGHT) with (Some (Motor right_motor)).
      unfold on_motor. rewrite Hv. reflexivity. }
  split; [exact Hcall|]. rewrite get_put_same.
  assert (GoPiGoMotor.speed v =
          (if (power <=? -128)%Z then 0
           else if (127 <=? power)%Z then 500 else IZR power / 127 * 500)) as Hspeed.
  { rewrite Hs. unfold p. z_cases; try lia; try reflexivity; try lra.
    replace power with 127%Z by lia. lra. }
  split; [exact Ht|]. split; [exact Hspeed|]. split.
  - rewrite Hspeed.
    destruct (Z.leb_spec power (-128)); [rewrite Rabs_R0; lra|].
    destruct (Z.leb_spec 127 power); [rewrite Rabs_right; lra|].
    assert (-127 <= IZR power <= 127) as Hb.
    { split; apply IZR_le; lia. }
    apply MotorFacts.Rabs_le_iff. lra.
  - split; [exact He|]. split; [exact Hl|]. split.
    + intros m' Hm. apply get_put_other. exact Hm.
    + apply body_put.
Qed.

Lemma get_motor_encoder_one (m : motor) (bot : GoPiGoBot.t) :
  get_motor_encoder (match m with left_motor => MOTOR_LEFT | right_motor => MOTOR_RIGHT end)
                    bot
  = Returns (GoPiGoMotor.get_encoder (get m bot)) bot.
Proof. destruct m; reflexivity. Qed.

Lemma offset_motor_encoder_one (m : motor) (offset : R) (bot : GoPiGoBot.t) :
  offset_motor_encoder
    (match m with left_motor => MOTOR_LEFT | right_motor => MOTOR_RIGHT end) offset bot
  = Returns tt (put m (GoPiGoMotor.offset_encoder (get m bot) offset) bot).
Proof. destruct m; reflexivity. Qed.

(** The robot after the encoder of [m] is offset by its own reading. *)
Lemma reset_one (m : motor) (bot : GoPiGoBot.t) :
  bind (get_motor_encoder
          (match m with left_motor => MOTOR_LEFT | right_motor => MOTOR_RIGHT end) bot)
       (fun encoder bot' =>
          offset_motor_encoder
            (match m with left_motor => MOTOR_LEFT | right_motor => MOTOR_RIGHT end)
            (IZR encoder) bot')
  = Returns tt
      (put m (GoPiGoMotor.offset_encoder
                (get m bot) (IZR (GoPiGoMotor.get_encoder (get m bot)))) bot).
Proof.
  rewrite get_motor_encoder_one. cbn [bind].
  apply offset_motor_encoder_one.
Qed.

(** X6: [reset_motor_encoder] never raises, whatever the port.  A motor
    whose bit is set in the port reads 0 through [get_motor_encoder]
    afterwards; a motor whose bit is not set is unchanged; the pose is
    unchanged. *)
Theorem reset_motor_encoder_reads_zero (port : Z) (bot : GoPiGoBot.t) :
  exists bot' : GoPiGoBot.t,
    reset_motor_encoder port bot = Returns tt bot'
    /\ (Z.land port MOTOR_LEFT <> 0%Z ->
        get_motor_encoder MOTOR_LEFT bot' = Returns 0%Z bot')
    /\ (Z.land port MOTOR_RIGHT <> 0%Z ->
        get_motor_encoder MOTOR_RIGHT bot' = Returns 0%Z bot')
    /\ (Z.land port MOTOR_LEFT = 0%Z ->
        GoPiGoBot.left_motor bot' = GoPiGoBot.left_motor bot)
    /\ (Z.land port MOTOR_RIGHT = 0%Z ->
        GoPiGoBot.right_motor bot' = GoPiGoBot.right_motor bot)
    /\ GoPiGoBot.body bot' = GoPiGoBot.body bot.
Proof.
  unfold reset_motor_encoder.
  pose proof (reset_one left_motor) as Hleft.
  pose proof (reset_one right_motor) as Hright.
  cbv iota in Hleft, Hright.
  assert (forall v : GoPiGoMotor.t,
             GoPiGoMotor.get_encoder
               (GoPiGoMotor.offset_encoder v (IZR (GoPiGoMotor.get_encoder v))) = 0%Z)
    as Hzero.
  { intros v. unfold GoPiGoMotor.get_encoder, GoPiGoMotor.offset_encoder.
    cbn [GoPiGoMotor.encoder GoPiGoMotor.with_encoder].
    apply MotorMore.reading_of_remainder, MotorMore.remainder_of_reading. }
  destruct (Z.eqb_spec (Z.land port MOTOR_LEFT) 0) as [Hl|Hl];
    destruct (Z.eqb_spec (Z.land port MOTOR_RIGHT) 0) as [Hr|Hr]; cbn [negb bind].
  - exists bot. split; [reflexivity|]. repeat split; intros; try reflexivity; contradiction.
  - rewrite Hright. eexists. split; [reflexivity|].
    split; [intros; contradiction|]. split.
    + intros _. rewrite (get_motor_encoder_one right_motor).
      rewrite get_put_same, Hzero. reflexivity.
    + split; [reflexivity|]. split; [intros; contradiction | reflexivity].
  - rewrite Hleft. cbn [bind]. eexists. split; [reflexivity|]. split.
    + intros _. rewrite (get_motor_encoder_one left_motor).
      rewrite get_put_same, Hzero. reflexivity.
    + split; [intros; contradiction|]. split; [intros; contradiction|].
      split; reflexivity.
  - rewrite Hleft. cbn [bind]. rewrite Hright. eexists. split; [reflexivity|]. split.
    + intros _. rewrite (get_motor_encoder_one left_motor).
      cbn [get put GoPiGoBot.left_motor GoPiGoBot.right_motor]. rewrite Hzero.
      reflexivity.
    + split.
      * intros _. rewrite (get_motor_encoder_one right_motor).
        rewrite get_put_same, Hzero. reflexivity.
      * split; [intros; contradiction|]. split; [intros; contradiction | reflexivity].
Qed.

(** X7: on port 3 (both motors) each of the five setters does what it does
    on port 1 and then on port 2. *)
Theorem both_motors_port_is_left_then_right (bot : GoPiGoBot.t) :
  (forall power : Z,
      set_motor_power 3 power bot =
      bind (set_motor_power 1 power bot) (fun _ bot' => set_motor_power 2 power bot'))
  /\ (forall position : R,
        set_motor_position 3 position bot =
        bind (set_motor_position 1 position bot)
             (fun _ bot' => set_motor_position 2 position bot'))
  /\ (forall dps : R,
        set_motor_dps 3 dps bot =
        bind (set_motor_dps 1 dps bot) (fun _ bot' => set_motor_dps 2 dps bot'))
  /\ (forall power dps : R,
        set_motor_limits 3 power dps bot =
        bind (set_motor_limits 1 power dps bot)
             (fun _ bot' => set_motor_limits 2 power dps bot'))
  /\ (forall offset : R,
        offset_motor_encoder 3 offset bot =
        bind (offset_motor_encoder 1 offset bot)
             (fun _ bot' => offset_motor_encoder 2 offset bot')).
Proof.
  assert (forall method,
             on_port method 3 bot =
             bind (on_port method 1 bot) (fun _ bot' => on_port method 2 bot')) as Hport.
  { intros method. unfold on_port.
    change (getitem MOTORS 3) with (Some (GoPiGo3Motors [left_motor; right_motor])).
    change (getitem MOTORS 1) with (Some (Motor left_motor)).
    change (getitem MOTORS 2) with (Some (Motor right_motor)).
    cbn [on_motors]. destruct (on_motor method left_motor bot) as [[] bot'|e bot'];
      cbn [bind]; [|reflexivity].
    destruct (on_motor method right_motor bot') as [[] bot''|e bot'']; reflexivity. }
  repeat split; intros; apply Hport.
Qed.

Lemma getitem_outside (port : Z) :
  (port < -4 \/ 3 < port)%Z -> getitem MOTORS port = None.
Proof.
  intros Hport. unfold getitem.
  change (length MOTORS) with 4%nat.
  destruct (Z.leb_spec 0 port) as [Hpos|Hneg].
  - apply nth_error_None. change (length MOTORS) with 4%nat. lia.
  - destruct (Z.leb_spec (- Z.of_nat 4) port) as [Hin|Hout]; [lia | reflexivity].
Qed.

(** X8: for each of the five setters ([set_motor_power],
    [set_motor_position], [set_motor_dps], [set_motor_limits] and
    [offset_motor_encoder], which all apply a motor method to
    [self.MOTORS[port]]): a port below -4 or above 3 raises [IndexError], the
    ports 0 and -4 raise [AttributeError], in both cases with the robot
    unchanged; the ports -3, -2 and -1 address the left motor, the right
    motor and both motors, as 1, 2 and 3 do. *)
Theorem setter_ports (method : GoPiGoMotor.t -> Py.result GoPiGoMotor.t)
        (port : Z) (bot : GoPiGoBot.t) :
  ((port < -4 \/ 3 < port)%Z -> on_port method port bot = Raises IndexError bot)
  /\ (port = 0%Z \/ port = (-4)%Z -> on_port method port bot = Raises AttributeError bot)
  /\ on_port method (-3) bot = on_port method 1 bot
  /\ on_port method (-2) bot = on_port method 2 bot
  /\ on_port method (-1) bot = on_port method 3 bot.
Proof.
  split; [|split].
  - intros Hport. unfold on_port. rewrite getitem_outside by exact Hport. reflexivity.
  - intros [-> | ->]; reflexivity.
  - repeat split.
Qed.

Lemma setter_ports_witness :
  set_motor_dps 7 100
    (GoPiGoBot.mk (TwoWheelsBot.mk 0 0 0 66.5 117 105.5 1.04 (0, 0) 0)
                  GoPiGoMotor.__init__ GoPiGoMotor.__init__)
  = Raises IndexError
      (GoPiGoBot.mk (TwoWheelsBot.mk 0 0 0 66.5 117 105.5 1.04 (0, 0) 0)
                    GoPiGoMotor.__init__ GoPiGoMotor.__init__).
Proof.
  apply (proj1 (setter_ports (fun m => Py.Ok (GoPiGoMotor.set_dps m 100)) 7 _)).
  right. lia.
Defined.

(** X9: [get_motor_encoder] returns the reading of the left motor on port
    1 and of the right motor on port 2, and raises [IOError] on every other
    port, port 3 included; [get_motor_status] raises on every port; neither
    changes the robot. *)
Theorem reader_ports (port : Z) (bot : GoPiGoBot.t) :
  get_motor_encoder port bot =
  (if (port =? 1)%Z then
     Returns (GoPiGoMotor.get_encoder (GoPiGoBot.left_motor bot)) bot
   else if (port =? 2)%Z then
     Returns (GoPiGoMotor.get_encoder (GoPiGoBot.right_motor bot)) bot
   else Raises IOError bot)
  /\ exists e : exception, get_motor_status port bot = Raises e bot.
Proof.
  unfold get_motor_encoder, get_motor_status, MOTOR_LEFT, MOTOR_RIGHT.
  destruct (Z.eqb_spec port 1) as [->|H1]; cbn [orb].
  - split; [reflexivity|]. eexists. reflexivity.
  - destruct (Z.eqb_spec port 2) as [->|H2].
    + split; [reflexivity|]. eexists. reflexivity.
    + split; [reflexivity|]. eexists. reflexivity.
Qed.

(** X10: [reset_all] always raises [AttributeError], after it has stopped
    both motors: each motor is left without a target, with a commanded
    speed of 0 and a limit of 0, so that its next [update] returns 0; the
    encoders and the pose are unchanged. *)
Theorem reset_all_stops_then_raises (bot : GoPiGoBot.t) :
  exists bot' : GoPiGoBot.t,
    reset_all bot = Raises AttributeError bot'
    /\ (forall m : motor,
           GoPiGoMotor.target (get m bot') = None
           /\ GoPiGoMotor.speed (get m bot') = 0
           /\ GoPiGoMotor.limit (get m bot') = 0
           /\ GoPiGoMotor.encoder (get m bot') = GoPiGoMotor.encoder (get m bot)
           /\ forall delta_time : R,
               snd (GoPiGoMotor.update (get m bot') delta_time) = 0)
    /\ GoPiGoBot.body bot' = GoPiGoBot.body bot.
Proof.
  eexists. split; [reflexivity|]. split; [|reflexivity].
  assert (forall v : GoPiGoMotor.t,
             GoPiGoMotor.limit v = 0 ->
             forall delta_time, snd (GoPiGoMotor.update v delta_time) = 0) as Hstill.
  { intros v Hv dt. rewrite MotorFacts.update_eq. cbn [snd].
    rewrite (MotorFacts.desired_speed_no_limit v Hv). lra. }
  assert ((if 0 <? 0 then - 0 else 0) = 0) as Hzero by (py_cases; lra).
  intros m. destruct m; cbn [get GoPiGoBot.left_motor GoPiGoBot.right_motor put];
    (split; [reflexivity|]); (split; [reflexivity|]);
    (split; [exact Hzero|]); (split; [reflexivity|]);
    apply Hstill; exact Hzero.
Qed.

End AdapterFacts.

(** ** The kinematics integrator, continued *)

Module KinematicsMore.
Import TwoWheelsBot KinematicsRun.

(** X11: with a nonzero wheel base, equal wheel deltas move the robot along
    its heading by the arc length of the wheels, [delta * pi * diameter /
    360], and leave the heading unchanged. *)
Theorem equal_deltas_drive_straight (self : t) (delta : R) :
  wheels_distance self <> 0 ->
  exists self' : t,
    add_wheel_delta self delta delta = Py.Ok self'
    /\ heading self' = heading self
    /\ x self' = x self + cos (heading self) * (delta * PI * wheel_diameter self / 360)
    /\ y self' = y self + sin (heading self) * (delta * PI * wheel_diameter self / 360).
Proof.
  intros Hd. rewrite KinematicsFacts.add_wheel_delta_ok by exact Hd.
  eexists. split; [reflexivity|].
  assert (turn self delta delta = 0) as Hk by (unfold turn; field; exact Hd).
  assert (travel self delta delta = delta * PI * wheel_diameter self / 360) as Hs
      by (unfold travel; field).
  rewrite Hk, Hs. cbn [heading x y moved]. unfold moved_x, moved_y.
  destruct (Req_dec_T 0 0) as [_|Hn]; [|contradiction].
  repeat split. ring.
Qed.

Lemma equal_deltas_drive_straight_witness :
  exists self' : t,
    add_wheel_delta (mk 0 0 0 66.5 117 105.5 1.04 (0, 0) 0) 360 360 = Py.Ok self'
    /\ heading self' = heading (mk 0 0 0 66.5 117 105.5 1.04 (0, 0) 0)
    /\ x self' = x (mk 0 0 0 66.5 117 105.5 1.04 (0, 0) 0)
                 + cos (heading (mk 0 0 0 66.5 117 105.5 1.04 (0, 0) 0))
                   * (360 * PI * wheel_diameter (mk 0 0 0 66.5 117 105.5 1.04 (0, 0) 0) / 360)
    /\ y self' = y (mk 0 0 0 66.5 117 105.5 1.04 (0, 0) 0)
                 + sin (heading (mk 0 0 0 66.5 117 105.5 1.04 (0, 0) 0))
                   * (360 * PI * wheel_diameter (mk 0 0 0 66.5 117 105.5 1.04 (0, 0) 0) / 360).
Proof.
  apply (equal_deltas_drive_straight (mk 0 0 0 66.5 117 105.5 1.04 (0, 0) 0) 360).
  cbn [wheels_distance]. lra.
Defined.

(** X12: with a nonzero wheel base, opposite wheel deltas turn the robot on
    the spot: the position is unchanged and the heading changes by
    [2 * delta * pi * diameter / 360 / wheels_distance]. *)
Theorem opposite_deltas_turn_on_the_spot (self : t) (delta : R) :
  wheels_distance self <> 0 ->
  exists self' : t,
    add_wheel_delta self (- delta) delta = Py.Ok self'
    /\ x self' = x self /\ y self' = y self
    /\ heading self' =
       heading self + 2 * delta * PI * wheel_diameter self / 360 / wheels_distance self.
Proof.
  intros Hd. rewrite KinematicsFacts.add_wheel_delta_ok by exact Hd.
  eexists. split; [reflexivity|].
  assert (travel self (- delta) delta = 0) as Hs by (unfold travel; field).
  rewrite Hs. cbn [heading x y moved]. unfold moved_x, moved_y.
  destruct (Req_dec_T (turn self (- delta) delta) 0) as [Hk|Hk].
  - repeat split; try ring. rewrite Hk. unfold turn in Hk.
    replace (2 * delta) with (delta - - delta) by ring. rewrite Hk. reflexivity.
  - repeat split; try ring. unfold turn. f_equal. field. exact Hd.
Qed.

Lemma opposite_deltas_turn_on_the_spot_witness :
  exists self' : t,
    add_wheel_delta (mk 0 0 0 66.5 117 105.5 1.04 (0, 0) 0) (- 90) 90 = Py.Ok self'
    /\ x self' = x (mk 0 0 0 66.5 117 105.5 1.04 (0, 0) 0)
    /\ y self' = y (mk 0 0 0 66.5 117 105.5 1.04 (0, 0) 0)
    /\ heading self' =
       heading (mk 0 0 0 66.5 117 105.5 1.04 (0, 0) 0)
       + 2 * 90 * PI * wheel_diameter (mk 0 0 0 66.5 117 105.5 1.04 (0, 0) 0) / 360
         / wheels_distance (mk 0 0 0 66.5 117 105.5 1.04 (0, 0) 0).
Proof.
  apply (opposite_deltas_turn_on_the_spot (mk 0 0 0 66.5 117 105.5 1.04 (0, 0) 0) 90).
  cbn [wheels_distance]. lra.
Defined.

(** X14: [add_wheel_delta] raises [ZeroDivisionError] exactly when the
    wheel base [wheels_distance] is zero, whatever the deltas. *)
Theorem add_wheel_delta_raises_iff_no_base (self : t) (l r : R) :
  add_wheel_delta self l r = Py.ZeroDivisionError <-> wheels_distance self = 0.
Proof.
  split.
  - intros Hraise. destruct (Req_dec_T (wheels_distance self) 0) as [Hd|Hd];
      [exact Hd|].
    rewrite KinematicsFacts.add_wheel_delta_ok in Hraise by exact Hd. discriminate.
  - intros Hd. unfold add_wheel_delta.
    rewrite truediv_ok by lra. cbn [Py.bind].
    rewrite Hd, truediv_zero. reflexivity.
Qed.

End KinematicsMore.

(** ** The distance sensor, continued *)

From Stdlib Require Import Permutation.

Module SensorMore.
Import GoPiGoDistanceSensor SensorRun SensorGeometry.

(** X16: [read_mm] never raises and never returns a negative number (the
    -1 of a segment that is not hit never comes out). *)
Theorem read_mm_is_not_negative (r : rect) (bot : TwoWheelsBot.t) :
  exists d : R, read_mm r bot = Py.Ok d /\ 0 <= d.
Proof.
  unfold read_mm.
  destruct (SensorFacts.raytrace_least
              (TwoWheelsBot.x bot) (TwoWheelsBot.y bot)
              (cos (TwoWheelsBot.heading bot)) (sin (TwoWheelsBot.heading bot))
              (segments_of r)) as (b & -> & Hb).
  cbn [Py.bind]. destruct b as [|m].
  - exists 8190. split; [reflexivity | lra].
  - exists m. split; [reflexivity|]. apply Hb.
Qed.

Lemma least_accepted_unique (ds ds' : list R) (b b' : best) :
  (forall d, In d ds <-> In d ds') ->
  least_accepted ds b -> least_accepted ds' b' -> b = b'.
Proof.
  intros Hsame Hb Hb'. destruct b as [|m], b' as [|m']; cbn in Hb, Hb'.
  - reflexivity.
  - destruct Hb' as (Hin & Hpos & _). apply Hsame in Hin. specialize (Hb m' Hin). lra.
  - destruct Hb as (Hin & Hpos & _). apply Hsame in Hin. specialize (Hb' m Hin). lra.
  - destruct Hb as (Hin & Hpos & Hmin). destruct Hb' as (Hin' & Hpos' & Hmin').
    f_equal. apply Rle_antisym.
    + apply Hmin; [apply Hsame; exact Hin' | exact Hpos'].
    + apply Hmin'; [apply Hsame; exact Hin | exact Hpos].
Qed.

(** X17: the result of [raytrace] does not depend on the order in which
    the segments are listed. *)
Theorem raytrace_ignores_order (x y dx dy : R) (segments segments' : list segment) :
  Permutation segments segments' ->
  raytrace x y dx dy segments = raytrace x y dx dy segments'.
Proof.
  intros Hperm.
  destruct (SensorFacts.raytrace_least x y dx dy segments) as (b & -> & Hb).
  destruct (SensorFacts.raytrace_least x y dx dy segments') as (b' & -> & Hb').
  f_equal. apply (least_accepted_unique _ _ b b' ) with (2 := Hb) (3 := Hb').
  intros d. split; apply Permutation_in.
  - apply Permutation_map. exact Hperm.
  - apply Permutation_map, Permutation_sym. exact Hperm.
Qed.

Lemma raytrace_ignores_order_witness :
  raytrace 0 0 1 0 [(2, -1, 2, 1); (5, -1, 5, 1)]
  = raytrace 0 0 1 0 [(5, -1, 5, 1); (2, -1, 2, 1)].
Proof.
  apply raytrace_ignores_order. apply perm_swap.
Defined.

Lemma quot_nonneg (a c : R) : 0 < c -> 0 <= a -> 0 <= a / c.
Proof.
  intros Hc Ha. unfold Rdiv. apply Rmult_le_pos; [exact Ha|].
  left. apply Rinv_0_lt_compat. exact Hc.
Qed.

Lemma quot_le_1 (a c : R) : 0 < c -> a <= c -> a / c <= 1.
Proof.
  intros Hc Ha. apply (Rmult_le_reg_r c); [exact Hc|].
  unfold Rdiv. rewrite Rmult_assoc, Rinv_l by lra. lra.
Qed.

(** Looking along the x axis, the walls that are level are parallel to the
    ray. *)
Lemma level_wall_ahead (x y w xa xb : R) :
  intersection_value x y 1 0 xa w xb w = -1.
Proof.
  unfold intersection_value. cbv zeta.
  destruct (Req_dec_T 1 0) as [H|_]; [lra|].
  destruct (Req_dec_T (w - w - (xb - xa) * (0 / 1)) 0) as [_|H]; [reflexivity|].
  exfalso. apply H. field.
Qed.

(** The wall behind is rejected. *)
Lemma upright_wall_behind (x y w ya yb : R) :
  w < x -> ya <> yb -> intersection_value x y 1 0 w ya w yb = -1.
Proof.
  intros Hw Hab. unfold intersection_value. cbv zeta.
  destruct (Req_dec_T 1 0) as [H|_]; [lra|].
  destruct (Req_dec_T (yb - ya - (w - w) * (0 / 1)) 0) as [H|_]; [reflexivity|].
  set (t := (y - ya + (w - x) * (0 / 1)) / (yb - ya - (w - w) * (0 / 1))).
  replace ((w + t * (w - w) - x) / 1) with (w - x) by field.
  unfold Py.lt at 1. destruct (Rlt_dec (w - x) 0); [reflexivity | lra].
Qed.

(** The wall ahead is hit at its distance. *)
Lemma upright_wall_ahead (x y w ya yb : R) :
  x < w -> ya < y < yb -> intersection_value x y 1 0 w ya w yb = w - x.
Proof.
  intros Hw Hy. unfold intersection_value. cbv zeta.
  destruct (Req_dec_T 1 0) as [H|_]; [lra|].
  destruct (Req_dec_T (yb - ya - (w - w) * (0 / 1)) 0) as [H|_].
  { exfalso. assert (yb - ya - (w - w) * (0 / 1) = yb - ya) as Ha by field. lra. }
  replace ((y - ya + (w - x) * (0 / 1)) / (yb - ya - (w - w) * (0 / 1)))
    with ((y - ya) / (yb - ya)) by (field; lra).
  assert (0 <= (y - ya) / (yb - ya)) as Ht0 by (apply quot_nonneg; lra).
  assert ((y - ya) / (yb - ya) <= 1) as Ht1 by (apply quot_le_1; lra).
  assert ((y - ya) / (yb - ya) * (yb - ya) = y - ya) as Ht by (field; lra).
  revert Ht0 Ht1 Ht. generalize ((y - ya) / (yb - ya)). intros t Ht0 Ht1 Ht.
  replace ((w + t * (w - w) - x) / 1) with (w - x) by field.
  unfold Py.lt, Py.gt.
  destruct (Rlt_dec (w - x) 0); [lra|].
  destruct (Rgt_dec t 1); [lra|].
  destruct (Rlt_dec t 0); [lra|]. cbn [orb].
  replace ((t * (w - w) + w - x) ^ 2 + (t * (yb - ya) + ya - y) ^ 2)
    with ((w - x) ^ 2) by (rewrite Ht; ring).
  apply sqrt_pow2. lra.
Qed.

(** X20: for a robot strictly inside the rectangle [(r0, r1, r2, r3)] at
    [(x, y)] whose heading is 0, the heading every robot starts with,
    [read_mm] returns [r2 - x]: heading 0 looks along the positive x axis. *)
Theorem read_mm_at_heading_zero (r0 r1 r2 r3 : R) (bot : TwoWheelsBot.t) :
  inside (r0, r1, r2, r3) (TwoWheelsBot.x bot) (TwoWheelsBot.y bot) ->
  TwoWheelsBot.heading bot = 0 ->
  read_mm (r0, r1, r2, r3) bot = Py.Ok (r2 - TwoWheelsBot.x bot).
Proof.
  intros [Hx Hy] Hh. unfold read_mm, raytrace.
  rewrite SensorFacts.raytrace_from_ok, Hh, cos_0, sin_0.
  cbn [segments_of map distance_to].
  rewrite !level_wall_ahead.
  rewrite upright_wall_ahead by lra.
  rewrite upright_wall_behind by (try apply Rgt_not_eq; lra).
  cbn [fold_left]. unfold keep_best at 4. unfold Py.ge.
  destruct (Rge_dec (-1) 0); [lra|]. cbn [andb].
  unfold keep_best at 3. unfold Py.ge.
  destruct (Rge_dec (r2 - TwoWheelsBot.x bot) 0); [|lra]. cbn [andb lt_best].
  unfold keep_best, Py.ge.
  destruct (Rge_dec (-1) 0); [lra|]. cbn [andb Py.bind]. reflexivity.
Qed.

Lemma read_mm_at_heading_zero_witness :
  read_mm (-400, -400, 400, 400)
          (TwoWheelsBot.mk 100 50 0 66.5 117 105.5 1.04 (0, 0) 0)
  = Py.Ok (400 - TwoWheelsBot.x (TwoWheelsBot.mk 100 50 0 66.5 117 105.5 1.04 (0, 0) 0)).
Proof.
  apply (read_mm_at_heading_zero
           (-400) (-400) 400 400
           (TwoWheelsBot.mk 100 50 0 66.5 117 105.5 1.04 (0, 0) 0)).
  - cbn [inside TwoWheelsBot.x TwoWheelsBot.y]. lra.
  - reflexivity.
Defined.

End SensorMore.

(** ** The scheduler, continued *)

Module SchedulerMore.
Import Playground SchedulerRun PlaygroundTicks.

Lemma bot_update_ok (bot : GoPiGoBot.t) (dt : R) :
  well_based bot ->
  exists body',
    GoPiGoBot.update bot dt =
    Py.Ok (GoPiGoBot.mk body'
             (fst (GoPiGoMotor.update (GoPiGoBot.left_motor bot) dt))
             (fst (GoPiGoMotor.update (GoPiGoBot.right_motor bot) dt)))
    /\ TwoWheelsBot.wheels_distance body'
       = TwoWheelsBot.wheels_distance (GoPiGoBot.body bot).
Proof.
  intros Hwb. unfold GoPiGoBot.update.
  destruct (GoPiGoMotor.update (GoPiGoBot.left_motor bot) dt) as [left' ld].
  destruct (GoPiGoMotor.update (GoPiGoBot.right_motor bot) dt) as [right' rd].
  rewrite KinematicsFacts.add_wheel_delta_ok by exact Hwb. cbn [Py.bind fst].
  eexists. split; reflexivity.
Qed.

Lemma bot_update_raises (bot : GoPiGoBot.t) (dt : R) :
  TwoWheelsBot.wheels_distance (GoPiGoBot.body bot) = 0 ->
  GoPiGoBot.update bot dt = Py.ZeroDivisionError.
Proof.
  intros Hz. unfold GoPiGoBot.update.
  destruct (GoPiGoMotor.update (GoPiGoBot.left_motor bot) dt) as [left' ld].
  destruct (GoPiGoMotor.update (GoPiGoBot.right_motor bot) dt) as [right' rd].
  rewrite KinematicsFacts.add_wheel_delta_no_base by exact Hz. reflexivity.
Qed.

Lemma update_bots_raises_iff (robots : list GoPiGoBot.t) (dt : R) :
  update_bots robots dt = Py.ZeroDivisionError
  <-> Exists (fun bot => TwoWheelsBot.wheels_distance (GoPiGoBot.body bot) = 0) robots.
Proof.
  induction robots as [|bot rest IH]; cbn [update_bots].
  - split; [discriminate | intros H; inversion H].
  - destruct (Req_dec_T (TwoWheelsBot.wheels_distance (GoPiGoBot.body bot)) 0)
      as [Hz|Hnz].
    + rewrite bot_update_raises by exact Hz. cbn [Py.bind].
      split; [intros _; left; exact Hz | reflexivity].
    + destruct (bot_update_ok bot dt Hnz) as (body' & -> & _). cbn [Py.bind].
      destruct (update_bots rest dt) as [rest'|] eqn:Hrest; cbn [Py.bind].
      * split; [discriminate|]. intros H. inversion H as [? ? Hb|? ? Hr]; subst.
        -- contradiction.
        -- apply IH in Hr. discriminate.
      * split; [intros _; right; apply IH; reflexivity | reflexivity].
Qed.

(** X21: a tick of a playground that has ticked before raises
    [ZeroDivisionError] exactly when one of the registered robots has a wheel
    base of zero, whatever the time, the queue and the other robots. *)
Theorem tick_raises_iff_no_base (self : t) (fuel : nat)
        (last_update last_image_update current_time : R) :
  last_updates self = Some (last_update, last_image_update) ->
  update fuel current_time self = Some Py.ZeroDivisionError
  <-> Exists (fun bot => TwoWheelsBot.wheels_distance (GoPiGoBot.body bot) = 0)
             (bots self).
Proof.
  intros Hlast. rewrite <- (update_bots_raises_iff (bots self) (current_time - last_update)).
  unfold update. rewrite Hlast. cbn [bots with_last_updates].
  destruct (update_bots (bots self) (current_time - last_update)) as [robots'|].
  - split; [|discriminate].
    destruct (drain fuel 0 _); [|discriminate].
    destruct (_ >? _); discriminate.
  - split; reflexivity.
Qed.

Lemma tick_raises_iff_no_base_witness :
  update 0 1 (mk (1 / 30) (Some (0, 0))
                 [GoPiGoBot.mk (TwoWheelsBot.mk 0 0 0 66.5 0 105.5 1.04 (0, 0) 0)
                               GoPiGoMotor.__init__ GoPiGoMotor.__init__]
                 [] [] 0)
  = Some Py.ZeroDivisionError.
Proof.
  apply (proj2 (tick_raises_iff_no_base
                  (mk (1 / 30) (Some (0, 0))
                      [GoPiGoBot.mk (TwoWheelsBot.mk 0 0 0 66.5 0 105.5 1.04 (0, 0) 0)
                                    GoPiGoMotor.__init__ GoPiGoMotor.__init__]
                      [] [] 0) 0 0 0 1 eq_refl)).
  left. reflexivity.
Defined.

(** *** Several ticks of a playground whose queue is empty *)

Lemma motor_coasts (m : GoPiGoMotor.t) (dt : R) :
  GoPiGoMotor.target m = None ->
  motor_coasted dt m (fst (GoPiGoMotor.update m dt)).
Proof.
  intros Ht. rewrite MotorFacts.update_eq. cbn [fst].
  unfold motor_coasted, motor_advanced. cbn.
  repeat split; try assumption.
  unfold GoPiGoMotor.desired_speed. rewrite Ht, min_Rmin, max_Rmax. reflexivity.
Qed.

Lemma motor_coasted_refl (m : GoPiGoMotor.t) :
  GoPiGoMotor.target m = None -> motor_coasted 0 m m.
Proof.
  intros Ht. unfold motor_coasted, motor_advanced. repeat split; try assumption.
  lra.
Qed.

Lemma motor_coasted_trans (e1 e2 : R) (m m1 m2 : GoPiGoMotor.t) :
  motor_coasted e1 m m1 -> motor_coasted e2 m1 m2 -> motor_coasted (e1 + e2) m m2.
Proof.
  unfold motor_coasted, motor_advanced.
  intros (Ht & Ht1 & Hs1 & Hl1 & He1) (_ & Ht2 & Hs2 & Hl2 & He2).
  repeat split; try assumption; try congruence.
  rewrite He2, He1, Hs1, Hl1. ring.
Qed.

Lemma update_bots_coast (robots : list GoPiGoBot.t) (dt : R) :
  Forall cruising robots ->
  exists robots',
    update_bots robots dt = Py.Ok robots'
    /\ Forall2 (coasted dt) robots robots'
    /\ Forall cruising robots'.
Proof.
  induction 1 as [|bot rest (Hwb & Hl & Hr) Hrest IH].
  - exists []. repeat split; constructor.
  - destruct IH as (rest' & Hrest' & Hcoast & Hcruise).
    destruct (bot_update_ok bot dt Hwb) as (body' & Hup & Hbase).
    cbn [update_bots]. rewrite Hup, Hrest'. cbn [Py.bind].
    pose proof (motor_coasts _ dt Hl) as Hcl.
    pose proof (motor_coasts _ dt Hr) as Hcr.
    eexists. split; [reflexivity|]. split; constructor; try assumption.
    + unfold coasted. cbn. rewrite Hbase. auto.
    + unfold cruising. cbn. rewrite Hbase.
      split; [exact Hwb|]. split; [apply Hcl | apply Hcr].
Qed.

Lemma cruising_well_based (robots : list GoPiGoBot.t) :
  Forall cruising robots -> Forall well_based robots.
Proof. apply Forall_impl. intros bot H. apply H. Qed.

(** One tick of a playground that has ticked before and whose queue is
    empty. *)
Lemma tick_idle (self : t) (fuel : nat) (lu li now : R) :
  last_updates self = Some (lu, li) -> schedules self = [] ->
  Forall cruising (bots self) ->
  exists self',
    update fuel now self = Some (Py.Ok self')
    /\ last_updates self' = Some (now, li)
    /\ schedules self' = []
    /\ image_interval self' = image_interval self
    /\ Forall2 (coasted (now - lu)) (bots self) (bots self')
    /\ Forall cruising (bots self')
    /\ screen_updates self' =
       if now - li >? image_interval self
       then S (screen_updates self) else screen_updates self.
Proof.
  intros Hlast Hqueue Hcruise.
  destruct (update_bots_coast (bots self) (now - lu) Hcruise)
    as (robots' & Hbots & Hcoast & Hcruise').
  set (idle := with_bots robots' (with_last_updates (Some (now, li)) self)).
  assert (drain fuel 0 idle = Some idle) as Hdrain.
  { rewrite SchedulerFacts.drain_eq.
    assert (schedules idle = []) as -> by exact Hqueue. reflexivity. }
  exists (cleared now li idle). split.
  - apply (SchedulerFacts.update_drained self idle robots' lu); assumption.
  - unfold cleared. cbv zeta.
    change (image_interval (with_schedules [] idle)) with (image_interval self).
    destruct (_ >? _); cbn; repeat split; assumption.
Qed.

Lemma Forall2_coasted_refl (robots : list GoPiGoBot.t) :
  Forall cruising robots -> Forall2 (coasted 0) robots robots.
Proof.
  induction 1 as [|bot rest (Hwb & Hl & Hr) _ IH]; constructor; [|exact IH].
  split; [exact Hwb|]. split; apply motor_coasted_refl; assumption.
Qed.

Lemma Forall2_coasted_trans (e1 e2 : R) (l l1 : list GoPiGoBot.t) :
  Forall2 (coasted e1) l l1 ->
  forall l2, Forall2 (coasted e2) l1 l2 -> Forall2 (coasted (e1 + e2)) l l2.
Proof.
  induction 1 as [|b b1 l l1 (Hwb1 & Hl1 & Hr1) _ IH]; intros l2 H2;
    inversion H2 as [|? b2 ? l2' (Hwb2 & Hl2 & Hr2) Hrest]; subst; constructor.
  - split; [exact Hwb2|].
    split; eapply motor_coasted_trans; eassumption.
  - apply IH. exact Hrest.
Qed.

Lemma ticks_idle (times : list R) :
  forall (self : t) (fuel : nat) (lu li : R),
    last_updates self = Some (lu, li) -> schedules self = [] ->
    Forall cruising (bots self) ->
    exists self',
      ticks fuel times self = Some (Py.Ok self')
      /\ last_updates self' = Some (final times lu, li)
      /\ image_interval self' = image_interval self
      /\ Forall2 (coasted (final times lu - lu)) (bots self) (bots self')
      /\ (Forall (fun now => now - li > image_interval self) times ->
          screen_updates self' = (screen_updates self + length times)%nat)
      /\ (Forall (fun now => now - li <= image_interval self) times ->
          screen_updates self' = screen_updates self).
Proof.
  induction times as [|now rest IH]; intros self fuel lu li Hlast Hqueue Hcruise.
  - exists self. cbn [ticks final length]. split; [reflexivity|].
    split; [exact Hlast|]. split; [reflexivity|]. split.
    + replace (lu - lu) with 0 by ring. apply Forall2_coasted_refl. exact Hcruise.
    + split; intros _; lia.
  - destruct (tick_idle self fuel lu li now Hlast Hqueue Hcruise)
      as (self1 & Hup & Hlast1 & Hqueue1 & Hint1 & Hcoast1 & Hcruise1 & Hscreen1).
    destruct (IH self1 fuel now li Hlast1 Hqueue1 Hcruise1)
      as (self' & Hrun & Hlast' & Hint' & Hcoast' & Hmany & Hnone).
    exists self'. cbn [ticks final length]. rewrite Hup.
    split; [exact Hrun|]. split; [exact Hlast'|].
    split; [congruence|]. split.
    + replace (final rest now - lu) with ((now - lu) + (final rest now - now)) by ring.
      eapply Forall2_coasted_trans; eassumption.
    + rewrite Hint1 in Hmany, Hnone. split; intros Hall;
        inversion Hall as [|? ? Hnow Hrest]; subst.
      * rewrite (Hmany Hrest), Hscreen1.
        unfold Py.gt. destruct (Rgt_dec _ _); [lia | contradiction].
      * rewrite (Hnone Hrest), Hscreen1.
        unfold Py.gt. destruct (Rgt_dec _ _); [lra | reflexivity].
Qed.

(** X22: on a playground that never ticked, whose queue is empty and whose
    robots have a wheel base and motors in speed mode, any number of ticks
    succeeds, and afterwards every encoder has advanced by the commanded
    speed clamped to the limit, times the time between the first and the
    last tick: the first tick moves nothing, and the way the time is cut
    into ticks does not matter. *)
Theorem encoders_follow_the_clock (self : t) (fuel : nat) (first : R)
        (later : list R) :
  last_updates self = None -> schedules self = [] ->
  Forall cruising (bots self) ->
  exists self' : t,
    ticks fuel (first :: later) self = Some (Py.Ok self')
    /\ Forall2 (advanced (final later first - first)) (bots self) (bots self').
Proof.
  intros Hlast Hqueue Hcruise.
  cbn [ticks]. unfold update. rewrite Hlast.
  destruct (ticks_idle later (with_last_updates (Some (first, first)) self)
                       fuel first first eq_refl Hqueue Hcruise)
    as (self' & Hrun & _ & _ & Hcoast & _).
  exists self'. split; [exact Hrun|].
  cbn [bots with_last_updates] in Hcoast.
  eapply Forall2_impl; [|exact Hcoast].
  intros b b' (_ & Hl & Hr). split; [apply Hl | apply Hr].
Qed.

(** X23: [update] never moves [last_image_update] after the first tick.  On
    a playground whose queue is empty and whose robots have a wheel base
    and motors in speed mode, ticks that all come more than
    [image_interval] after the first tick refresh the screen once each,
    however close to one another they are; ticks that come within
    [image_interval] of the first tick never refresh it. *)
Theorem refresh_is_timed_from_the_first_tick (self : t) (fuel : nat)
        (last_update last_image_update : R) (times : list R) :
  last_updates self = Some (last_update, last_image_update) ->
  schedules self = [] -> Forall cruising (bots self) ->
  exists self' : t,
    ticks fuel times self = Some (Py.Ok self')
    /\ last_updates self' = Some (final times last_update, last_image_update)
    /\ (Forall (fun now => now - last_image_update > image_interval self) times ->
        screen_updates self' = (screen_updates self + length times)%nat)
    /\ (Forall (fun now => now - last_image_update <= image_interval self) times ->
        screen_updates self' = screen_updates self).
Proof.
  intros Hlast Hqueue Hcruise.
  destruct (ticks_idle times self fuel last_update last_image_update
                       Hlast Hqueue Hcruise)
    as (self' & Hrun & Hlast' & _ & _ & Hmany & Hnone).
  exists self'. auto.
Qed.

Lemma encoders_follow_the_clock_witness :
  exists self' : t,
    ticks 0 [0; 0.5; 1]
          (mk (1 / 30) None
              [GoPiGoBot.mk (TwoWheelsBot.mk 0 0 0 66.5 117 105.5 1.04 (0, 0) 0)
                 (GoPiGoMotor.set_dps (GoPiGoMotor.set_limits GoPiGoMotor.__init__ 300) 100)
                 (GoPiGoMotor.set_dps (GoPiGoMotor.set_limits GoPiGoMotor.__init__ 300) 200)]
              [] [] 0)
    = Some (Py.Ok self')
    /\ Forall2 (advanced (final [0.5; 1] 0 - 0))
         [GoPiGoBot.mk (TwoWheelsBot.mk 0 0 0 66.5 117 105.5 1.04 (0, 0) 0)
            (GoPiGoMotor.set_dps (GoPiGoMotor.set_limits GoPiGoMotor.__init__ 300) 100)
            (GoPiGoMotor.set_dps (GoPiGoMotor.set_limits GoPiGoMotor.__init__ 300) 200)]
         (bots self').
Proof.
  apply (encoders_follow_the_clock
           (mk (1 / 30) None
               [GoPiGoBot.mk (TwoWheelsBot.mk 0 0 0 66.5 117 105.5 1.04 (0, 0) 0)
                  (GoPiGoMotor.set_dps (GoPiGoMotor.set_limits GoPiGoMotor.__init__ 300) 100)
                  (GoPiGoMotor.set_dps (GoPiGoMotor.set_limits GoPiGoMotor.__init__ 300) 200)]
               [] [] 0) 0 0 [0.5; 1]).
  - reflexivity.
  - reflexivity.
  - constructor; [|constructor]. split; [|split; reflexivity].
    cbn [GoPiGoBot.body TwoWheelsBot.wheels_distance]. apply Rgt_not_eq. lra.
Defined.

Lemma refresh_is_timed_from_the_first_tick_witness :
  exists self' : t,
    ticks 0 [1; 1.001; 1.002] (mk (1 / 30) (Some (0, 0)) [] [] [] 0)
    = Some (Py.Ok self')
    /\ last_updates self' = Some (final [1; 1.001; 1.002] 0, 0)
    /\ (Forall (fun now => now - 0 > image_interval (mk (1 / 30) (Some (0, 0)) [] [] [] 0))
               [1; 1.001; 1.002] ->
        screen_updates self'
        = Nat.add (screen_updates (mk (1 / 30) (Some (0, 0)) [] [] [] 0))
                  (length [1; 1.001; 1.002]))
    /\ (Forall (fun now => now - 0 <= image_interval (mk (1 / 30) (Some (0, 0)) [] [] [] 0))
               [1; 1.001; 1.002] ->
        screen_updates self' = screen_updates (mk (1 / 30) (Some (0, 0)) [] [] [] 0)).
Proof.
  apply (refresh_is_timed_from_the_first_tick
           (mk (1 / 30) (Some (0, 0)) [] [] [] 0) 0 0 0 [1; 1.001; 1.002]).
  - reflexivity.
  - reflexivity.
  - constructor.
Defined.

End SchedulerMore.

(** ** From a command to the motion of the robot *)

Module RobotMore.
Import GoPiGo3.

(** X24: when both motors have the same limit and the wheel base is not
    zero, [set_motor_dps] on port 3 followed by one [update] of the robot
    moves it straight along its heading, by the commanded speed clamped to
    the limit, times the length of the tick, converted from degrees of wheel
    rotation to millimetres; the heading is unchanged. *)
Theorem same_speed_on_both_motors_drives_straight
        (bot : GoPiGoBot.t) (dps delta_time : R) :
  TwoWheelsBot.wheels_distance (GoPiGoBot.body bot) <> 0 ->
  GoPiGoMotor.limit (GoPiGoBot.left_motor bot)
  = GoPiGoMotor.limit (GoPiGoBot.right_motor bot) ->
  exists commanded moved : GoPiGoBot.t,
    set_motor_dps 3 dps bot = Returns tt commanded
    /\ GoPiGoBot.update commanded delta_time = Py.Ok moved
    /\ TwoWheelsBot.heading (GoPiGoBot.body moved)
       = TwoWheelsBot.heading (GoPiGoBot.body bot)
    /\ TwoWheelsBot.x (GoPiGoBot.body moved)
       = TwoWheelsBot.x (GoPiGoBot.body bot)
         + cos (TwoWheelsBot.heading (GoPiGoBot.body bot))
           * (Spec.clamp dps (- GoPiGoMotor.limit (GoPiGoBot.left_motor bot))
                         (GoPiGoMotor.limit (GoPiGoBot.left_motor bot))
              * delta_time * PI
              * TwoWheelsBot.wheel_diameter (GoPiGoBot.body bot) / 360)
    /\ TwoWheelsBot.y (GoPiGoBot.body moved)
       = TwoWheelsBot.y (GoPiGoBot.body bot)
         + sin (TwoWheelsBot.heading (GoPiGoBot.body bot))
           * (Spec.clamp dps (- GoPiGoMotor.limit (GoPiGoBot.left_motor bot))
                         (GoPiGoMotor.limit (GoPiGoBot.left_motor bot))
              * delta_time * PI
              * TwoWheelsBot.wheel_diameter (GoPiGoBot.body bot) / 360).
Proof.
  intros Hwb Hlimit.
  eexists. eexists. split; [reflexivity|].
  cbn [put get GoPiGoBot.body GoPiGoBot.left_motor GoPiGoBot.right_motor].
  unfold GoPiGoBot.update.
  cbn [GoPiGoBot.body GoPiGoBot.left_motor GoPiGoBot.right_motor].
  rewrite !MotorFacts.update_eq.
  rewrite KinematicsFacts.add_wheel_delta_ok by exact Hwb.
  cbn [Py.bind]. split; [reflexivity|].
  cbn [GoPiGoBot.body].
  set (v := Spec.clamp dps (- GoPiGoMotor.limit (GoPiGoBot.left_motor bot))
                       (GoPiGoMotor.limit (GoPiGoBot.left_motor bot))).
  assert (GoPiGoMotor.desired_speed
            (GoPiGoMotor.set_dps (GoPiGoBot.left_motor bot) dps) = v) as Hl.
  { unfold GoPiGoMotor.desired_speed, v, Spec.clamp. cbn.
    rewrite min_Rmin, max_Rmax. reflexivity. }
  assert (GoPiGoMotor.desired_speed
            (GoPiGoMotor.set_dps (GoPiGoBot.right_motor bot) dps) = v) as Hr.
  { unfold GoPiGoMotor.desired_speed, v, Spec.clamp. cbn.
    rewrite min_Rmin, max_Rmax, Hlimit. reflexivity. }
  rewrite Hl, Hr.
  assert (KinematicsRun.turn (GoPiGoBot.body bot) (v * delta_time) (v * delta_time) = 0)
    as Hk by (unfold KinematicsRun.turn; field; exact Hwb).
  assert (KinematicsRun.travel (GoPiGoBot.body bot) (v * delta_time) (v * delta_time)
          = v * delta_time * PI * TwoWheelsBot.wheel_diameter (GoPiGoBot.body bot) / 360)
    as Hs by (unfold KinematicsRun.travel; field).
  rewrite Hk, Hs.
  cbn [TwoWheelsBot.heading TwoWheelsBot.x TwoWheelsBot.y KinematicsRun.moved].
  unfold KinematicsRun.moved_x, KinematicsRun.moved_y.
  destruct (Req_dec_T 0 0) as [_|Hn]; [|contradiction].
  repeat split. ring.
Qed.

Lemma same_speed_on_both_motors_drives_straight_witness :
  exists commanded moved : GoPiGoBot.t,
    set_motor_dps 3 100
      (GoPiGoBot.mk (TwoWheelsBot.mk 0 0 0 66.5 117 105.5 1.04 (0, 0) 0)
                    (GoPiGoMotor.set_limits GoPiGoMotor.__init__ 300)
                    (GoPiGoMotor.set_limits GoPiGoMotor.__init__ 300))
    = Returns tt commanded
    /\ GoPiGoBot.update commanded 0.5 = Py.Ok moved
    /\ TwoWheelsBot.heading (GoPiGoBot.body moved) = 0.
Proof.
  destruct (same_speed_on_both_motors_drives_straight
              (GoPiGoBot.mk (TwoWheelsBot.mk 0 0 0 66.5 117 105.5 1.04 (0, 0) 0)
                            (GoPiGoMotor.set_limits GoPiGoMotor.__init__ 300)
                            (GoPiGoMotor.set_limits GoPiGoMotor.__init__ 300))
              100 0.5)
    as (commanded & moved & Hset & Hup & Hh & _).
  - cbn [GoPiGoBot.body TwoWheelsBot.wheels_distance]. apply Rgt_not_eq. lra.
  - reflexivity.
  - exists commanded, moved. split; [exact Hset|]. split; [exact Hup | exact Hh].
Defined.

End RobotMore.

(** ** The kinematics integrator on doubles *)

Module Float64Facts.
Import PrimFloat Float64.
Local Open Scope float_scope.

Lemma sub_diag (v : float) : finite v -> v - v = 0.
Proof.
  unfold finite. intros Hv. apply FloatAxioms.Prim2SF_inj.
  rewrite FloatAxioms.sub_spec.
  destruct (FloatOps.Prim2SF v) as [s|s| |s m e]; try contradiction.
  - destruct s; reflexivity.
  - unfold FloatAxioms.SF64sub, SpecFloat.SFsub. rewrite Z.sub_diag. reflexivity.
Qed.

Lemma opp_add_diag (v : float) : finite v -> - v + v = 0.
Proof.
  unfold finite. intros Hv. apply FloatAxioms.Prim2SF_inj.
  rewrite FloatAxioms.add_spec, FloatAxioms.opp_spec.
  destruct (FloatOps.Prim2SF v) as [s|s| |s m e]; try contradiction.
  - destruct s; reflexivity.
  - unfold FloatAxioms.SF64add, SpecFloat.SFadd, SpecFloat.SFopp.
    destruct s; cbn [negb SpecFloat.cond_Zopp];
      rewrite ?Z.add_opp_diag_r, ?Z.add_opp_diag_l; reflexivity.
Qed.

Section Libm.

Variables sin cos : float -> float.

(** At heading 1, wheel deltas of 10 and 10.000000000000009 degrees give a
    heading change [k] of 4.4e-17, which is not 0 and which [k + heading]
    absorbs: the two sines and the two cosines are taken at the same float,
    their differences are 0, and the robot is left where it was. *)
Lemma tiny_turn_is_lost (po sc : float) (tp : float * float) (th : float) :
  finite (sin 1) -> finite (cos 1) ->
  add_wheel_delta sin cos (mk 0 0 1 66.5 117 po sc tp th)
                  (100 / 10) (0x1.9000000000006p+6 / 10)
  = Py.Ok (mk 0 0 1 66.5 117 po sc
              ((0 + sin 1 * po) * sc, (0 - cos 1 * po) * sc) (degrees 1)).
Proof.
  intros sin_1 cos_1.
  unfold add_wheel_delta, truediv, ne.
  cbn [x y heading wheel_diameter wheels_distance pen_offset scale].
  cbv.
  rewrite (sub_diag _ sin_1), (opp_add_diag _ cos_1).
  reflexivity.
Qed.

(** However often the call is repeated, the robot stays at (0, 0) with
    heading 1. *)
Lemma tiny_turns_are_lost (po sc : float) (n : nat) :
  finite (sin 1) -> finite (cos 1) ->
  forall (tp : float * float) (th : float),
  exists (tp' : float * float) (th' : float),
    add_wheel_delta_times sin cos n (mk 0 0 1 66.5 117 po sc tp th)
                          (100 / 10) (0x1.9000000000006p+6 / 10)
    = Py.Ok (mk 0 0 1 66.5 117 po sc tp' th').
Proof.
  intros sin_1 cos_1.
  induction n as [|n IH]; intros tp th.
  - exists tp, th. reflexivity.
  - cbn [add_wheel_delta_times].
    rewrite (tiny_turn_is_lost po sc tp th sin_1 cos_1).
    cbn [Py.bind]. apply IH.
Qed.

(** With the same wheels turned by exactly 10 degrees each, [k] is 0 and the
    straight branch moves the robot by [s] along its heading. *)
Lemma equal_deltas_move (po sc : float) (tp : float * float) (th : float) :
  exists (tp' : float * float),
    add_wheel_delta sin cos (mk 0 0 1 66.5 117 po sc tp th) (100 / 10) (100 / 10)
    = Py.Ok (mk (0 + cos 1 * 0x1.7367f3dd44d35p+2) (0 + sin 1 * 0x1.7367f3dd44d35p+2)
                1 66.5 117 po sc tp' (degrees 1)).
Proof.
  unfold add_wheel_delta, truediv, ne.
  cbn [x y heading wheel_diameter wheels_distance pen_offset scale].
  cbv. eexists. reflexivity.
Qed.

(** C2: on doubles the small calls do not add up to the large one.  The
    robot stands at (0, 0) with heading 1, wheel diameter 66.5 and wheel
    distance 117; [sin] and [cos] take their correctly rounded values at 1
    and at 1.0000000000000004.  One call with the deltas 100 and
    100.00000000000009 moves the robot to
    (30.468750000000018, 60.937500000000036) with heading
    1.0000000000000004; ten calls with a tenth of each delta leave it at
    (0, 0) with heading 1. *)
Theorem ten_small_calls_lose_the_motion (po sc : float) (tp : float * float) (th : float) :
  sin 1 = 0x1.aed548f090ceep-1 ->
  cos 1 = 0x1.14a280fb5068cp-1 ->
  sin 0x1.0000000000002p+0 = 0x1.aed548f090cf0p-1 ->
  cos 0x1.0000000000002p+0 = 0x1.14a280fb50688p-1 ->
  exists one ten : t,
    add_wheel_delta sin cos (mk 0 0 1 66.5 117 po sc tp th)
                    100 0x1.9000000000006p+6 = Py.Ok one /\
    add_wheel_delta_times sin cos 10 (mk 0 0 1 66.5 117 po sc tp th)
                          (100 / 10) (0x1.9000000000006p+6 / 10) = Py.Ok ten /\
    x one = 0x1.e780000000005p+4 /\
    y one = 0x1.e780000000005p+5 /\
    heading one = 0x1.0000000000002p+0 /\
    x ten = 0 /\ y ten = 0 /\ heading ten = 1.
Proof.
  intros sin_1 cos_1 sin_2 cos_2.
  assert (Hs : finite (sin 1)) by (rewrite sin_1; exact I).
  assert (Hc : finite (cos 1)) by (rewrite cos_1; exact I).
  destruct (tiny_turns_are_lost po sc 10 Hs Hc tp th) as [tp' [th' Hten]].
  eexists. exists (mk 0 0 1 66.5 117 po sc tp' th').
  split; [|split; [exact Hten|]].
  - unfold add_wheel_delta, truediv, ne.
    cbn [x y heading wheel_diameter wheels_distance pen_offset scale].
    cbv. reflexivity.
  - cbn [x y heading]. rewrite sin_1, cos_1, sin_2, cos_2.
    repeat split; reflexivity.
Qed.

End Libm.

(** The premises hold of a sine and a cosine that take the four values and
    are 0 elsewhere. *)
Lemma ten_small_calls_lose_the_motion_witness :
  let sin := fun a : float =>
    if a =? 1 then 0x1.aed548f090ceep-1
    else if a =? 0x1.0000000000002p+0 then 0x1.aed548f090cf0p-1 else 0 in
  let cos := fun a : float =>
    if a =? 1 then 0x1.14a280fb5068cp-1
    else if a =? 0x1.0000000000002p+0 then 0x1.14a280fb50688p-1 else 0 in
  exists one ten : t,
    add_wheel_delta sin cos (mk 0 0 1 66.5 117 105.5 1 (0, 0) 0)
                    100 0x1.9000000000006p+6 = Py.Ok one /\
    add_wheel_delta_times sin cos 10 (mk 0 0 1 66.5 117 105.5 1 (0, 0) 0)
                          (100 / 10) (0x1.9000000000006p+6 / 10) = Py.Ok ten /\
    x one = 0x1.e780000000005p+4 /\
    y one = 0x1.e780000000005p+5 /\
    heading one = 0x1.0000000000002p+0 /\
    x ten = 0 /\ y ten = 0 /\ heading ten = 1.
Proof.
  intros sin cos.
  apply (ten_small_calls_lose_the_motion sin cos 105.5 1 (0, 0) 0);
    reflexivity.
Defined.

End Float64Facts.
